(** * clop: file selection for the clipboard

    A shallow embedding of [src/clop.js] and a verification of the
    statements its specification makes about it.

    The program is a single script.  It reads its arguments (parsed by
    [yargs]), builds an ignore ruleset ([ignore]), enumerates files
    ([glob]), tests files for tag markers ([fileHasTag], a [RegExp]
    search), removes excluded files, and writes the concatenated contents
    to the clipboard ([clipboardy]).

    Layout: the first part holds the definitions, one module per
    collaborator ([JSRegExp], [Minimatch], [Host], [Glob], [Ignore],
    [Yargs]) and the module [Clop] for the script itself; the second
    part holds the lemmas.  The collaborators are packages the script
    loads, not code of the script: their modules model the documented
    behaviour of those packages on the fragment of inputs that each
    module names. *)

From Stdlib Require Import ZArith NArith String Ascii List DecimalString
  Permutation Lia Bool.
From stdpp Require Import gmap strings.
Import ListNotations.

(* ================================================================== *)
(** * Part I: definitions *)
(* ================================================================== *)

(** ** Strings

    JavaScript strings are sequences of UTF-16 code units; here a string
    is Rocq's [string], a sequence of bytes.  The two agree on ASCII
    text, which is all the matching functions below look at (every
    character they single out is ASCII). *)

Module Str.

Definition chars (s : string) : list ascii := list_ascii_of_string s.
Definition of_chars (l : list ascii) : string := string_of_list_ascii l.

(** [s.startsWith(c)] for a one-character [c]. *)
Definition starts_with_char (c : ascii) (s : string) : bool :=
  match s with
  | String d _ => Ascii.eqb c d
  | EmptyString => false
  end.

(** [s.substring(1)]. *)
Definition substring1 (s : string) : string :=
  match s with
  | String _ r => r
  | EmptyString => EmptyString
  end.

(** [s.includes(c)] for a one-character [c]. *)
Fixpoint includes_char (c : ascii) (s : string) : bool :=
  match s with
  | EmptyString => false
  | String d r => Ascii.eqb c d || includes_char c r
  end.

(** [s.split(c)] for a one-character [c]: never the empty list. *)
Fixpoint split (c : ascii) (s : string) : list string :=
  match s with
  | EmptyString => [EmptyString]
  | String d r =>
      if Ascii.eqb c d then EmptyString :: split c r
      else match split c r with
           | x :: xs => String d x :: xs
           | [] => [String d EmptyString]
           end
  end.

(** [l.join(sep)]. *)
Definition join (sep : string) (l : list string) : string :=
  String.concat sep l.

Fixpoint is_prefix (p s : list ascii) : bool :=
  match p, s with
  | [], _ => true
  | _ :: _, [] => false
  | a :: p', b :: s' => Ascii.eqb a b && is_prefix p' s'
  end.

(** [s.includes(t)]: [t] occurs in [s] as a contiguous substring. *)
Fixpoint includes_chars (t s : list ascii) : bool :=
  is_prefix t s ||
  match s with
  | [] => false
  | _ :: s' => includes_chars t s'
  end.

Definition includes (t s : string) : bool :=
  includes_chars (chars t) (chars s).

(** Decimal numeral of a natural number, as [String(n)] prints it. *)
Definition of_N (n : N) : string :=
  match n with
  | N0 => "0"
  | _ => NilEmpty.string_of_uint (N.to_uint n)
  end.

End Str.

(** ** Regular expressions

    A model of the part of the built-in [RegExp] that [fileHasTag] can
    reach with the sources of the fragment below.  [RegExp_new] stands
    for [new RegExp(source, 's')]: [None] is the [SyntaxError] the
    constructor throws.  [test] stands for [regex.test(text)]: some
    substring of the text is matched.  No construct of the fragment
    depends on the order in which a backtracking matcher tries its
    choices, so [test] is decided with derivatives, which carry the
    character before and the character after the current position for
    the assertions.

    Fragment: ordinary characters, [.], character classes with ranges
    and negation, the escapes [\d \D \w \W \s \S \t \n \v \f \r \0] and
    a backslash before a punctuation character, the assertions
    [^ $ \b \B], the quantifiers [* + ? {n} {n,} {n,m}] and their lazy
    forms, alternation, and the groups [( )] and [(?: )], all over
    ASCII.  Look-around, named groups, back references and the escapes
    [\c \x \u \k \p] are not modelled: [in_fragment] is false for the
    sources that use them, and what this module computes for such a
    source carries no meaning.  A character is a byte, of the source
    and of the text: where the text leaves ASCII, [.] and the classes
    count bytes where [RegExp] counts UTF-16 units. *)

Module JSRegExp.

Inductive assertion : Type :=
| Bol                       (* [^]: at the start of the text *)
| Eol                       (* [$]: at the end of the text *)
| WordBoundary              (* [\b] *)
| NotWordBoundary.          (* [\B] *)

Inductive regex : Type :=
| Void                      (* matches nothing *)
| Eps                       (* the empty string *)
| AnyChar                   (* [.] under the [s] flag: any character *)
| Chr (c : ascii)
| CharSet (negated : bool) (ranges : list (ascii * ascii))
| Assert (a : assertion)
| Cat (r1 r2 : regex)
| Alt (r1 r2 : regex)
| Star (r : regex).

(** *** Characters *)

Definition is_digit (c : ascii) : bool :=
  let n := nat_of_ascii c in (48 <=? n) && (n <=? 57).

Definition is_alnum (c : ascii) : bool :=
  let n := nat_of_ascii c in
  ((48 <=? n) && (n <=? 57)) || ((65 <=? n) && (n <=? 90))
  || ((97 <=? n) && (n <=? 122)).

Definition is_word (c : ascii) : bool := is_alnum c || Ascii.eqb c "_".

Definition in_range (c : ascii) (r : ascii * ascii) : bool :=
  (nat_of_ascii (fst r) <=? nat_of_ascii c)
  && (nat_of_ascii c <=? nat_of_ascii (snd r)).

Definition in_set (negated : bool) (ranges : list (ascii * ascii))
  (c : ascii) : bool :=
  xorb negated (existsb (in_range c) ranges).

Definition digits : list (ascii * ascii) := [("0", "9")]%char.

Definition word_chars : list (ascii * ascii) :=
  [("a", "z"); ("A", "Z"); ("0", "9"); ("_", "_")]%char.

(** Space, and tab to carriage return. *)
Definition spaces : list (ascii * ascii) :=
  [(" ", " "); ("009", "013")]%char.

(** The complements of the three sets within the bytes, for [\D], [\W]
    and [\S] inside a class. *)
Definition not_digits : list (ascii * ascii) :=
  [("000", "/"); (":", "255")]%char.

Definition not_word_chars : list (ascii * ascii) :=
  [("000", "/"); (":", "@"); ("[", "^"); ("`", "`"); ("{", "255")]%char.

Definition not_spaces : list (ascii * ascii) :=
  [("000", "008"); ("014", "031"); ("!", "255")]%char.

(** *** Matching *)

Definition word_at (o : option ascii) : bool :=
  match o with
  | Some c => is_word c
  | None => false
  end.

Definition is_none (o : option ascii) : bool :=
  match o with
  | Some _ => false
  | None => true
  end.

(** The assertion holds between the characters [prev] and [next];
    [None] is the start or the end of the text. *)
Definition holds (a : assertion) (prev next : option ascii) : bool :=
  match a with
  | Bol => is_none prev
  | Eol => is_none next
  | WordBoundary => xorb (word_at prev) (word_at next)
  | NotWordBoundary => negb (xorb (word_at prev) (word_at next))
  end.

Fixpoint nullable (prev next : option ascii) (r : regex) : bool :=
  match r with
  | Void => false
  | Eps => true
  | AnyChar => false
  | Chr _ => false
  | CharSet _ _ => false
  | Assert a => holds a prev next
  | Cat r1 r2 => nullable prev next r1 && nullable prev next r2
  | Alt r1 r2 => nullable prev next r1 || nullable prev next r2
  | Star _ => true
  end.

Definition cat (r1 r2 : regex) : regex :=
  match r1, r2 with
  | Void, _ => Void
  | _, Void => Void
  | Eps, _ => r2
  | _, Eps => r1
  | _, _ => Cat r1 r2
  end.

Definition alt (r1 r2 : regex) : regex :=
  match r1, r2 with
  | Void, _ => r2
  | _, Void => r1
  | _, _ => Alt r1 r2
  end.

(** What is left of [r] after the character [c], which follows
    [prev]. *)
Fixpoint deriv (prev : option ascii) (c : ascii) (r : regex) : regex :=
  match r with
  | Void => Void
  | Eps => Void
  | AnyChar => Eps
  | Chr d => if Ascii.eqb c d then Eps else Void
  | CharSet negated ranges => if in_set negated ranges c then Eps else Void
  | Assert _ => Void
  | Cat r1 r2 =>
      if nullable prev (Some c) r1
      then alt (cat (deriv prev c r1) r2) (deriv prev c r2)
      else cat (deriv prev c r1) r2
  | Alt r1 r2 => alt (deriv prev c r1) (deriv prev c r2)
  | Star r1 => cat (deriv prev c r1) (Star r1)
  end.

(** Some prefix of [s], which follows [prev], is matched by [r]. *)
Fixpoint matches_prefix (prev : option ascii) (r : regex) (s : list ascii)
  : bool :=
  match s with
  | [] => nullable prev None r
  | c :: s' =>
      nullable prev (Some c) r || matches_prefix (Some c) (deriv prev c r) s'
  end.

(** Some substring of [s], which follows [prev], is matched by [r]. *)
Fixpoint search (prev : option ascii) (r : regex) (s : list ascii) : bool :=
  matches_prefix prev r s ||
  match s with
  | [] => false
  | c :: s' => search (Some c) r s'
  end.

Definition test (r : regex) (text : string) : bool :=
  search None r (Str.chars text).

(** *** Parsing

    One pass over the source with a stack of open groups.  A frame
    holds the alternatives already closed by [|], the concatenation of
    the finished terms of the current alternative, and the last atom,
    which a quantifier may still apply to. *)

Inductive quantified : Type :=
| Bare          (* no quantifier yet *)
| Greedy        (* one quantifier: a [?] may still make it lazy *)
| Closed.       (* nothing more may follow *)

Record frame : Type := Frame {
  alts : regex;
  seq : regex;
  last : option (regex * quantified)
}.

Definition empty_frame : frame := Frame Void Eps None.

Definition flush (f : frame) : regex :=
  match last f with
  | Some (r, _) => cat (seq f) r
  | None => seq f
  end.

Definition finish (f : frame) : regex := alt (alts f) (flush f).

Definition push_atom (a : regex) (f : frame) : frame :=
  Frame (alts f) (flush f) (Some (a, Bare)).

(** An assertion takes no quantifier. *)
Definition push_assertion (a : assertion) (f : frame) : frame :=
  Frame (alts f) (flush f) (Some (Assert a, Closed)).

Definition next_alternative (f : frame) : frame :=
  Frame (alt (alts f) (flush f)) Eps None.

Definition quantify (c : ascii) (r : regex) : regex :=
  match c with
  | "*"%char => Star r
  | "+"%char => Cat r (Star r)
  | _ => Alt r Eps
  end.

(** A quantifier with nothing to repeat, or a third quantifier in a
    row, is a syntax error. *)
Definition apply_quantifier (c : ascii) (f : frame) : option frame :=
  match last f with
  | None => None
  | Some (r, Bare) => Some (Frame (alts f) (seq f) (Some (quantify c r, Greedy)))
  | Some (r, Greedy) =>
      if Ascii.eqb c "?" then Some (Frame (alts f) (seq f) (Some (r, Closed)))
      else None
  | Some (_, Closed) => None
  end.

(** **** Escapes *)

Inductive escaped : Type :=
| EChar (c : ascii)
| ESet (negated : bool) (ranges : list (ascii * ascii))
| EAssert (a : assertion).

(** The character after a backslash, outside a class. *)
Definition escape (c : ascii) : escaped :=
  match c with
  | "d"%char => ESet false digits
  | "D"%char => ESet true digits
  | "w"%char => ESet false word_chars
  | "W"%char => ESet true word_chars
  | "s"%char => ESet false spaces
  | "S"%char => ESet true spaces
  | "b"%char => EAssert WordBoundary
  | "B"%char => EAssert NotWordBoundary
  | "t"%char => EChar "009"
  | "n"%char => EChar "010"
  | "v"%char => EChar "011"
  | "f"%char => EChar "012"
  | "r"%char => EChar "013"
  | "0"%char => EChar "000"
  | _ => EChar c
  end.

Definition push_escape (c : ascii) (f : frame) : frame :=
  match escape c with
  | EChar d => push_atom (Chr d) f
  | ESet negated ranges => push_atom (CharSet negated ranges) f
  | EAssert a => push_assertion a f
  end.

(** **** Braced quantifiers: [{n}], [{n,}], [{n,m}] *)

Record brace : Type := Brace {
  low : option nat;
  comma : bool;
  high : option nat
}.

Definition no_brace : brace := Brace None false None.

Definition digit_value (c : ascii) : nat := nat_of_ascii c - 48.

Definition more (c : ascii) (n : option nat) : option nat :=
  match n with
  | Some k => Some (10 * k + digit_value c)
  | None => Some (digit_value c)
  end.

Definition brace_digit (c : ascii) (b : brace) : brace :=
  if comma b then Brace (low b) true (more c (high b))
  else Brace (more c (low b)) false None.

(** A comma is taken once, after the first number. *)
Definition brace_comma (b : brace) : option brace :=
  match low b, comma b with
  | Some _, false => Some (Brace (low b) true None)
  | _, _ => None
  end.

(** The bounds at the closing brace; the upper bound [None] is no upper
    bound. *)
Definition brace_bounds (b : brace) : option (nat * option nat) :=
  match low b with
  | Some n => Some (n, if comma b then high b else Some n)
  | None => None
  end.

Fixpoint power (r : regex) (n : nat) : regex :=
  match n with
  | O => Eps
  | S k => Cat r (power r k)
  end.

Definition repeat (r : regex) (n : nat) (m : option nat) : regex :=
  match m with
  | Some k => Cat (power r n) (power (Alt r Eps) (k - n))
  | None => Cat (power r n) (Star r)
  end.

(** A braced quantifier with nothing to repeat, or with its numbers out
    of order, is a syntax error. *)
Definition apply_brace (n : nat) (m : option nat) (f : frame) : option frame :=
  match last f with
  | Some (r, Bare) =>
      if match m with
         | Some k => Nat.ltb k n
         | None => false
         end
      then None
      else Some (Frame (alts f) (seq f) (Some (repeat r n m, Greedy)))
  | _ => None
  end.

(** **** Character classes *)

(** What the scan of a class holds back: a character that may begin a
    range, with or without the dash after it, or a set that has just
    been read, with or without a dash after it. *)
Inductive pending : Type :=
| NoPending
| Single (a : ascii)
| SingleDash (a : ascii)
| SetRead
| SetDash.

Record class : Type := Class {
  fresh : bool;                       (* nothing read yet *)
  negated : bool;
  ranges : list (ascii * ascii);
  pend : pending
}.

Definition new_class : class := Class true false [] NoPending.

Definition one (a : ascii) : ascii * ascii := (a, a).

(** A character in a class; a range whose ends are out of order is a
    syntax error. *)
Definition class_char (b : ascii) (k : class) : option class :=
  match pend k with
  | NoPending | SetRead =>
      Some (Class false (negated k) (ranges k) (Single b))
  | Single a =>
      Some (Class false (negated k) (ranges k ++ [one a]) (Single b))
  | SingleDash a =>
      if nat_of_ascii a <=? nat_of_ascii b
      then Some (Class false (negated k) (ranges k ++ [(a, b)]) NoPending)
      else None
  | SetDash =>
      Some (Class false (negated k) (ranges k ++ [one "-"%char; one b])
                  NoPending)
  end.

(** A set such as [\d] in a class; a dash next to it stands for
    itself. *)
Definition class_set (set : list (ascii * ascii)) (k : class) : class :=
  match pend k with
  | NoPending | SetRead =>
      Class false (negated k) (ranges k ++ set) SetRead
  | Single a =>
      Class false (negated k) (ranges k ++ one a :: set) SetRead
  | SingleDash a =>
      Class false (negated k) (ranges k ++ one a :: one "-"%char :: set)
            NoPending
  | SetDash =>
      Class false (negated k) (ranges k ++ one "-"%char :: set) NoPending
  end.

Definition class_dash (k : class) : option class :=
  match pend k with
  | NoPending => Some (Class false (negated k) (ranges k) (Single "-"))
  | Single a => Some (Class false (negated k) (ranges k) (SingleDash a))
  | SingleDash a => class_char "-" k
  | SetRead => Some (Class false (negated k) (ranges k) SetDash)
  | SetDash =>
      Some (Class false (negated k)
                  (ranges k ++ [one "-"%char; one "-"%char]) NoPending)
  end.

(** The character after a backslash, inside a class: [\b] is the
    backspace there, and [\B] the letter. *)
Definition class_escape (c : ascii) (k : class) : option class :=
  match c with
  | "d"%char => Some (class_set digits k)
  | "D"%char => Some (class_set not_digits k)
  | "w"%char => Some (class_set word_chars k)
  | "W"%char => Some (class_set not_word_chars k)
  | "s"%char => Some (class_set spaces k)
  | "S"%char => Some (class_set not_spaces k)
  | "b"%char => class_char "008" k
  | _ =>
      match escape c with
      | EChar d => class_char d k
      | _ => class_char c k
      end
  end.

Definition class_close (k : class) : regex :=
  CharSet (negated k)
          (ranges k
           ++ match pend k with
              | Single a => [one a]
              | SingleDash a => [one a; one "-"%char]
              | SetDash => [one "-"%char]
              | NoPending | SetRead => []
              end).

(** **** The pass *)

Fixpoint parse (s : list ascii) (cur : frame) (stack : list frame)
  : option regex :=
  match s with
  | [] =>
      match stack with
      | [] => Some (finish cur)
      | _ :: _ => None                       (* unterminated group *)
      end
  | ("(" :: "?" :: ":" :: s')%char => parse s' empty_frame (cur :: stack)
  | ("(" :: s')%char => parse s' empty_frame (cur :: stack)
  | (")" :: s')%char =>
      match stack with
      | [] => None                           (* unmatched ')' *)
      | outer :: stack' => parse s' (push_atom (finish cur) outer) stack'
      end
  | ("|" :: s')%char => parse s' (next_alternative cur) stack
  | ("*" :: s')%char | ("+" :: s')%char | ("?" :: s')%char =>
      match s with
      | q :: _ =>
          match apply_quantifier q cur with
          | Some cur' => parse s' cur' stack
          | None => None                     (* nothing to repeat *)
          end
      | [] => None
      end
  | ("{" :: s')%char =>
      (* [Some] of the parse of the rest when a braced quantifier
         starts here, [None] when the brace is an ordinary character *)
      match
        (fix scan (t : list ascii) (b : brace) {struct t}
           : option (option regex) :=
           match t with
           | [] => None
           | ("," :: t')%char =>
               match brace_comma b with
               | Some b' => scan t' b'
               | None => None
               end
           | ("}" :: t')%char =>
               match brace_bounds b with
               | Some (n, m) =>
                   Some match apply_brace n m cur with
                        | Some cur' => parse t' cur' stack
                        | None => None       (* nothing to repeat, or
                                                numbers out of order *)
                        end
               | None => None
               end
           | c :: t' => if is_digit c then scan t' (brace_digit c b) else None
           end) s' no_brace
      with
      | Some rest => rest
      | None => parse s' (push_atom (Chr "{") cur) stack
      end
  | ("[" :: s')%char =>
      (fix scan (t : list ascii) (k : class) {struct t} : option regex :=
         match t with
         | [] => None                        (* unterminated class *)
         | ("]" :: t')%char => parse t' (push_atom (class_close k) cur) stack
         | ("^" :: t')%char =>
             if fresh k then scan t' (Class false true [] NoPending)
             else
               match class_char "^" k with
               | Some k' => scan t' k'
               | None => None                (* range out of order *)
               end
         | ("-" :: t')%char =>
             match class_dash k with
             | Some k' => scan t' k'
             | None => None
             end
         | ("\" :: c :: t')%char =>
             match class_escape c k with
             | Some k' => scan t' k'
             | None => None
             end
         | c :: t' =>
             match class_char c k with
             | Some k' => scan t' k'
             | None => None
             end
         end) s' new_class
  | ("^" :: s')%char => parse s' (push_assertion Bol cur) stack
  | ("$" :: s')%char => parse s' (push_assertion Eol cur) stack
  | ("." :: s')%char => parse s' (push_atom AnyChar cur) stack
  | ("\" :: c :: s')%char => parse s' (push_escape c cur) stack
  | ["\"%char] => None                       (* \ at end of pattern *)
  | c :: s' => parse s' (push_atom (Chr c) cur) stack
  end.

(** [new RegExp(source, 's')]. *)
Definition RegExp_new (source : string) : option regex :=
  parse (Str.chars source) empty_frame [].

(** *** The fragment *)

Definition is_ascii (c : ascii) : bool := nat_of_ascii c <? 128.

(** Escapes whose reading depends on what follows them, or on the
    groups of the pattern. *)
Definition unmodelled_escape (c : ascii) : bool :=
  existsb (Ascii.eqb c)
    ["1"; "2"; "3"; "4"; "5"; "6"; "7"; "8"; "9";
     "c"; "k"; "x"; "u"; "p"; "P"]%char.

Fixpoint in_fragment_chars (s : list ascii) : bool :=
  match s with
  | [] => true
  | ("\" :: "0" :: s')%char =>
      match s' with
      | d :: _ => negb (is_digit d)
      | [] => true
      end && in_fragment_chars s'
  | ("\" :: c :: s')%char =>
      is_ascii c && negb (unmodelled_escape c) && in_fragment_chars s'
  | ("(" :: "?" :: ":" :: s')%char => in_fragment_chars s'
  | ("(" :: "?" :: _)%char => false
  | c :: s' => is_ascii c && in_fragment_chars s'
  end.

Definition in_fragment (source : string) : bool :=
  in_fragment_chars (Str.chars source).

End JSRegExp.

(** ** Glob patterns

    A model of the matcher of the [glob] package ([minimatch]): brace
    expansion of the whole pattern, then a segment-by-segment match of
    each alternative against the path, following the library's
    [matchOne].  [glob] hands its patterns to the matcher with comments
    and negation switched off, so [#] and [!] are ordinary characters.

    Fragment: literal characters, [?], [*], the globstar segment [**]
    and brace alternation with balanced braces, in patterns that do
    not end in a separator.  Character classes, extended globs,
    backslash escapes and brace ranges are not modelled ([in_fragment]
    is false for such patterns), and a character is a byte. *)

Module Minimatch.

(** *** Brace expansion *)

(** Splits [s] at the [}] that closes a brace opened just before it:
    the body and what follows the closing brace. *)
Fixpoint close_brace (depth : nat) (s : list ascii)
  : option (list ascii * list ascii) :=
  match s with
  | [] => None
  | c :: s' =>
      if Ascii.eqb c "}" then
        match depth with
        | O => Some ([], s')
        | S d =>
            match close_brace d s' with
            | Some (body, post) => Some (c :: body, post)
            | None => None
            end
        end
      else
        match close_brace (if Ascii.eqb c "{" then S depth else depth) s' with
        | Some (body, post) => Some (c :: body, post)
        | None => None
        end
  end.

(** The first brace pair of [s]: what precedes it, its body, and what
    follows it. *)
Fixpoint balanced (s : list ascii)
  : option (list ascii * list ascii * list ascii) :=
  match s with
  | [] => None
  | c :: s' =>
      if Ascii.eqb c "{" then
        match close_brace 0 s' with
        | Some (body, post) => Some ([], body, post)
        | None => None
        end
      else
        match balanced s' with
        | Some (pre, body, post) => Some (c :: pre, body, post)
        | None => None
        end
  end.

(** The library's [parseCommaParts]: the body cut at the commas that
    are not inside a nested brace pair. *)
Fixpoint parseCommaParts (depth : nat) (s : list ascii)
  : list (list ascii) :=
  match s with
  | [] => [[]]
  | c :: s' =>
      if Ascii.eqb c "," && Nat.eqb depth 0 then [] :: parseCommaParts depth s'
      else
        let depth' :=
          if Ascii.eqb c "{" then S depth
          else if Ascii.eqb c "}" then Nat.pred depth
          else depth in
        match parseCommaParts depth' s' with
        | x :: xs => (c :: x) :: xs
        | [] => [[c]]
        end
  end.

Definition has_comma (s : list ascii) : bool := existsb (Ascii.eqb ",") s.

Definition embrace (s : list ascii) : list ascii :=
  ("{" :: s ++ ["}"])%char.

Definition product (pre : list ascii) (mid post : list (list ascii))
  : list (list ascii) :=
  flat_map (fun n => List.map (fun p => pre ++ n ++ p) post) mid.

(** The library's [expand].  A brace pair whose body has no comma is
    not a set of options: it stays in the result as it is written
    ([{a}] expands to [{a}] alone) and expansion goes on behind it.
    Every recursive call is on a shorter string, so a fuel of the
    length of the string (plus one) never runs out. *)
Fixpoint expand (fuel : nat) (s : list ascii) : list (list ascii) :=
  match fuel with
  | O => [s]
  | S fuel' =>
      match balanced s with
      | None => [s]
      | Some (pre, body, post) =>
          if negb (has_comma body) then
            List.map (fun p => pre ++ embrace body ++ p) (expand fuel' post)
          else
            let posts :=
              match post with
              | [] => [[]]
              | _ => expand fuel' post
              end in
            match parseCommaParts 0 body with
            | [only] =>
                match List.map embrace (expand fuel' only) with
                | [one] => List.map (fun p => pre ++ one ++ p) posts
                | n => product pre (flat_map (expand fuel') n) posts
                end
            | n => product pre (flat_map (expand fuel') n) posts
            end
      end
  end.

Definition nonempty (s : list ascii) : bool :=
  match s with
  | [] => false
  | _ :: _ => true
  end.

(** [minimatch.braceExpand(pattern)]; at the top level the library
    drops empty alternatives. *)
Definition braceExpand (pattern : string) : list string :=
  let s := Str.chars pattern in
  match balanced s with
  | None => [pattern]
  | Some _ =>
      List.map Str.of_chars
        (List.filter nonempty (expand (S (List.length s)) s))
  end.

(** *** Matching one path segment *)

(** A pattern segment against a file or directory name: [*] matches
    any run of characters, [?] exactly one. *)
Fixpoint wild (p : list ascii) (name : list ascii) : bool :=
  match p with
  | [] =>
      match name with
      | [] => true
      | _ :: _ => false
      end
  | c :: p' =>
      if Ascii.eqb c "*" then
        (fix star (n : list ascii) : bool :=
           wild p' n ||
           match n with
           | [] => false
           | _ :: n' => star n'
           end) name
      else
        match name with
        | [] => false
        | d :: name' =>
            (Ascii.eqb c "?" || Ascii.eqb c d) && wild p' name'
        end
  end.

Definition dotfile (name : string) : bool := Str.starts_with_char "." name.

(** Without the [dot] option a name that begins with a dot is matched
    only by a pattern segment that itself begins with a dot. *)
Definition segment_match (dot : bool) (p name : string) : bool :=
  (dot || negb (dotfile name) || dotfile p)
  && wild (Str.chars p) (Str.chars name).

(** What a globstar may swallow: never [.] or [..], and a hidden name
    only under the [dot] option. *)
Definition swallowable (dot : bool) (name : string) : bool :=
  negb (String.eqb name ".") && negb (String.eqb name "..")
  && (dot || negb (dotfile name)).

(** *** Matching a path *)

(** The loop of a globstar that is not the last segment: try the rest
    of the pattern ([rest]) here, else swallow one more name. *)
Fixpoint swallow (dot : bool) (rest : list string -> bool)
  (file : list string) : bool :=
  match file with
  | [] => false
  | s :: file' =>
      rest file || (swallowable dot s && swallow dot rest file')
  end.

(** The library's [matchOne] (not in partial mode): the segments of a
    path against the segments of one brace-expanded pattern.  A
    globstar at the end swallows all that is left, and needs at least
    one name. *)
Fixpoint matchOne (dot : bool) (file : list string) (pattern : list string)
  {struct pattern} : bool :=
  match pattern with
  | [] =>
      match file with
      | [] => true
      | [f] => String.eqb f EmptyString
      | _ => false
      end
  | p :: pr =>
      match file with
      | [] => false
      | f :: fr =>
          if String.eqb p "**" then
            match pr with
            | [] => forallb (swallowable dot) file
            | _ :: _ => swallow dot (fun fs => matchOne dot fs pr) file
            end
          else segment_match dot p f && matchOne dot fr pr
      end
  end.

(** [minimatch(path, pattern, {dot})]. *)
Definition minimatch (dot : bool) (path pattern : string) : bool :=
  existsb (fun alt => matchOne dot (Str.split "/" path) (Str.split "/" alt))
          (braceExpand pattern).

(** *** Plain patterns *)

Definition no_braces (s : list ascii) : bool :=
  forallb (fun c => negb (Ascii.eqb c "{") && negb (Ascii.eqb c "}")) s.

(** A pattern without braces and commas. *)
Definition plain_chars (s : list ascii) : bool :=
  forallb (fun c => negb (existsb (Ascii.eqb c) ["{"; "}"; ","]%char)) s.

Definition plain (pattern : string) : bool := plain_chars (Str.chars pattern).

(** *** The fragment *)

Definition unmodelled_char (c : ascii) : bool :=
  existsb (Ascii.eqb c) ["["; "]"; "("; ")"; "\"; "$"]%char.

Fixpoint depth_ok (depth : nat) (s : list ascii) : bool :=
  match s with
  | [] => Nat.eqb depth 0
  | c :: s' =>
      if Ascii.eqb c "{" then depth_ok (S depth) s'
      else if Ascii.eqb c "}" then
        match depth with
        | O => false
        | S d => depth_ok d s'
        end
      else depth_ok depth s'
  end.

(** A pattern that ends in a separator asks for directories, which
    [glob] reports in a form of their own. *)
Definition ends_in_separator (pattern : string) : bool :=
  match List.rev (Str.chars pattern) with
  | c :: _ => Ascii.eqb c "/"
  | [] => false
  end.

Definition in_fragment (pattern : string) : bool :=
  forallb (fun c => negb (unmodelled_char c)) (Str.chars pattern)
  && depth_ok 0 (Str.chars pattern)
  && negb (Str.includes ".." pattern)
  && negb (ends_in_separator pattern).

End Minimatch.

(** ** The host: file system and clipboard

    [snapshot] maps the path of every file and directory below the
    working directory (relative, with [/] as separator) to what is
    there.  [walk] lists the same paths in the order in which a
    directory walk meets them.  A file whose content is [None] exists
    but cannot be read. *)

Module Host.

Inductive node : Type :=
| File (content : option string) (size : N)
| Dir (size : N).

Record world : Type := World {
  snapshot : gmap string node;
  walk : list string;
  clipboard : string;
  clipboard_available : bool
}.

Inductive error : Type :=
| ENOENT (path : string)       (* no such file or directory *)
| EACCES (path : string)       (* the file cannot be read *)
| EISDIR (path : string)       (* read of a directory *)
| TypeError                    (* a method called on [undefined] *)
| ClipboardError.              (* no clipboard mechanism on the host *)

(** The result of a call that may throw. *)
Inductive result (A : Type) : Type :=
| Ok (a : A)
| Throw (e : error).
Arguments Ok {A} a.
Arguments Throw {A} e.

(** [fs.readFileSync(path, 'utf8')]. *)
Definition readFileSync (w : world) (path : string) : result string :=
  match snapshot w !! path with
  | Some (File (Some content) _) => Ok content
  | Some (File None _) => Throw (EACCES path)
  | Some (Dir _) => Throw (EISDIR path)
  | None => Throw (ENOENT path)
  end.

(** [fs.statSync(path).size]. *)
Definition statSync_size (w : world) (path : string) : result N :=
  match snapshot w !! path with
  | Some (File _ size) => Ok size
  | Some (Dir size) => Ok size
  | None => Throw (ENOENT path)
  end.

(** [fs.existsSync(path)]. *)
Definition existsSync (w : world) (path : string) : bool :=
  match snapshot w !! path with
  | Some _ => true
  | None => false
  end.

Definition is_file (w : world) (path : string) : bool :=
  match snapshot w !! path with
  | Some (File _ _) => true
  | _ => false
  end.

End Host.

(** ** Enumerating files

    [glob.sync(pattern, options)]: the paths of the walk that the
    pattern matches, in the order of the walk, without those the
    [ignore] option excludes.  A leading [./] of a pattern names the
    working directory and the paths are reported without it.  An ignore
    pattern is matched in [dot] mode whatever the other options say, and
    one that ends in [/**] also excludes the directory itself. *)

Module Glob.

Record options : Type := Options {
  ignore : option string;
  nodir : bool;
  dot : bool
}.

(** A leading [.] segment stays in the working directory. *)
Fixpoint skip_cwd (segments : list string) : list string :=
  match segments with
  | "." :: rest => skip_cwd rest
  | _ => segments
  end.

(** One of the alternatives of the pattern matches the path. *)
Definition matches (dot : bool) (pattern path : string) : bool :=
  existsb
    (fun alt =>
       Minimatch.matchOne dot (Str.split "/" path)
                          (skip_cwd (Str.split "/" alt)))
    (Minimatch.braceExpand pattern).

(** The pattern without its last segment, when that segment is [**]. *)
Definition ends_with_globstar (pattern : string) : option string :=
  match List.rev (Str.split "/" pattern) with
  | "**" :: (_ :: _) as before => Some (Str.join "/" (List.rev before))
  | _ => None
  end.

(** The [ignore] option excludes the path. *)
Definition isIgnored (opts : options) (path : string) : bool :=
  match ignore opts with
  | None => false
  | Some pattern =>
      Minimatch.minimatch true path pattern
      || match ends_with_globstar pattern with
         | Some directory => Minimatch.minimatch true path directory
         | None => false
         end
  end.

(** The test of [sync] on one path of the walk. *)
Definition selects (w : Host.world) (pattern : string) (opts : options)
  (path : string) : bool :=
  matches (dot opts) pattern path
  && negb (isIgnored opts path)
  && (negb (nodir opts) || Host.is_file w path).

Definition sync (w : Host.world) (pattern : string) (opts : options)
  : list string :=
  List.filter (selects w pattern opts) (Host.walk w).


End Glob.

(** ** Ignore rules

    A model of the [ignore] package: a ruleset is the list of the rules
    added so far; a path is ignored when one of its parent directories
    is, or when the last rule that matches it is not a negation.  Names
    are compared without regard to the case of the letters [a] to [z].

    Fragment: the rule forms [name], [name/], [/path], [a/b], [!rule]
    with [*], [?] and [**]; no character classes or escapes. *)

Module Ignore.

Record rule : Type := Rule {
  negative : bool;
  dir_only : bool;
  anchored : bool;
  segments : list string
}.

Definition is_space (c : ascii) : bool :=
  existsb (Ascii.eqb c) [" "; "009"; "013"]%char.

Fixpoint drop_spaces (s : list ascii) : list ascii :=
  match s with
  | c :: s' => if is_space c then drop_spaces s' else s
  | [] => []
  end.

Definition rstrip (s : string) : string :=
  Str.of_chars (List.rev (drop_spaces (List.rev (Str.chars s)))).

Definition strip_prefix_char (c : ascii) (s : string) : bool * string :=
  if Str.starts_with_char c s then (true, Str.substring1 s) else (false, s).

Definition strip_suffix_char (c : ascii) (s : string) : bool * string :=
  match List.rev (Str.chars s) with
  | d :: r =>
      if Ascii.eqb c d then (true, Str.of_chars (List.rev r)) else (false, s)
  | [] => (false, s)
  end.

(** The pattern has a separator before its last character: the rule
    is then matched from the top of the tree only.  The package tests
    this on the pattern as it is written, trailing spaces included. *)
Definition slash_before_end (pattern : string) : bool :=
  match List.rev (Str.chars pattern) with
  | _ :: before => existsb (Ascii.eqb "/") before
  | [] => false
  end.

(** One line of an ignore file; blank lines and comments give no rule. *)
Definition make_rule (line : string) : option rule :=
  if String.eqb (rstrip line) EmptyString || Str.starts_with_char "#" line
  then None
  else
    let '(neg, pattern) := strip_prefix_char "!" line in
    let '(_, s2) := strip_prefix_char "/" (rstrip pattern) in
    let '(dironly, s3) := strip_suffix_char "/" s2 in
    Some (Rule neg dironly (slash_before_end pattern) (Str.split "/" s3)).

(** The lines of an ignore file end at a line feed, with or without a
    carriage return before it. *)
Definition chomp (line : string) : string :=
  snd (strip_suffix_char "013" line).

Definition lines (content : string) : list string :=
  List.map chomp (Str.split "010" content).

(** [ig.add(content)]. *)
Definition add (content : string) (rules : list rule) : list rule :=
  rules ++ omap make_rule (lines content).

(** The package compares without regard to case, as its [ignorecase]
    option is on unless it is switched off. *)
Definition lower_char (c : ascii) : ascii :=
  let n := nat_of_ascii c in
  if (65 <=? n) && (n <=? 90) then ascii_of_nat (n + 32) else c.

Definition lower (s : string) : string :=
  Str.of_chars (List.map lower_char (Str.chars s)).

Definition rule_match (r : rule) (path : list string) (is_dir : bool)
  : bool :=
  let names := List.map lower path in
  let pattern := List.map lower (segments r) in
  (negb (dir_only r) || is_dir)
  && if anchored r then Minimatch.matchOne true names pattern
     else match pattern with
          | [p] => Minimatch.segment_match true p (List.last names EmptyString)
          | _ => false
          end.

(** The last matching rule decides. *)
Definition test_one (rules : list rule) (path : list string) (is_dir : bool)
  : bool :=
  fold_left
    (fun ignored r =>
       if rule_match r path is_dir then negb (negative r) else ignored)
    rules false.

(** [ig.ignores(path)]: the parent directories first, then the path. *)
Definition ignores (rules : list rule) (path : string) : bool :=
  let segs := Str.split "/" path in
  existsb
    (fun k => test_one rules (firstn k segs) (Nat.ltb k (List.length segs)))
    (List.seq 1 (List.length segs)).

End Ignore.


(** ** Command-line arguments

    [yargs(...).argv] is a JavaScript object: a finite map from property
    names to values.  [argv] builds the object that the option
    declarations of [main] produce for a command line with the given
    positional arguments, [--not] values and flags: one property per
    declared option, [_] for the positional arguments and [$0] for the
    script name.  Reading a property that is not there gives
    [undefined].

    The lists of a [command_line] hold the arguments as the script's
    [map(String)] returns them: yargs turns an argument that reads as
    a number into that number, and [String] gives its numeral.  An
    option that the script does not declare is accepted too and sets a
    property of its name ([with_option]).  A command line that yargs
    refuses (no positional argument, or an error in the options) ends
    the process with status 1 before the script reads [argv]. *)

Module Yargs.

Inductive value : Type :=
| Undefined
| Bool (b : bool)
| Text (s : string)
| Array (items : list string).

Definition get (o : gmap string value) (property : string) : value :=
  match o !! property with
  | Some v => v
  | None => Undefined
  end.

Definition truthy (v : value) : bool :=
  match v with
  | Undefined => false
  | Bool b => b
  | Text s => negb (String.eqb s EmptyString)
  | Array _ => true
  end.

Record command_line : Type := CommandLine {
  positional : list string;
  not_values : list string;
  nogitignore : bool;
  verbose : bool
}.

Definition argv (c : command_line) : gmap string value :=
  <["_" := Array (positional c)]>
    (<["not" := Array (not_values c)]>
       (<["nogitignore" := Bool (nogitignore c)]>
          (<["verbose" := Bool (verbose c)]>
             (<["$0" := Text "clop"]> ∅)))).

(** The object of a command line that also carries an option the
    script does not declare: yargs is not in strict mode and sets a
    property of that name. *)
Definition with_option (name : string) (v : value)
  (argv : gmap string value) : gmap string value :=
  <[name := v]> argv.

End Yargs.

(** ** The script *)

Module Clop.

Import Host.

(** [fileHasTag(filePath, tag)].  Both the read and the construction
    of the regular expression are inside the [try]; whatever they
    throw, the [catch] returns [false]. *)
Definition fileHasTag (w : world) (filePath tag : string) : bool :=
  match readFileSync w filePath with
  | Throw _ => false
  | Ok fileContent =>
      match JSRegExp.RegExp_new ("tags:.*#" +:+ tag) with
      | None => false
      | Some tagRegex => JSRegExp.test tagRegex fileContent
      end
  end.

(** The same function over any implementation of [RegExp]: [compile]
    stands for the constructor, [None] for what it throws, and [run]
    for [test]. *)
Definition fileHasTagWith {R : Type} (compile : string -> option R)
  (run : R -> string -> bool) (w : world) (filePath tag : string) : bool :=
  match readFileSync w filePath with
  | Throw _ => false
  | Ok fileContent =>
      match compile ("tags:.*#" +:+ tag) with
      | None => false
      | Some tagRegex => run tagRegex fileContent
      end
  end.

(** *** Reading the arguments *)

Definition is_tag (p : string) : bool := Str.starts_with_char "+" p.

(** [_.map(String)]; [_] is always an array in what yargs returns,
    and a call of [map] on anything else throws. *)
Definition inclusionArgs (argv : gmap string Yargs.value)
  : result (list string) :=
  match Yargs.get argv "_" with
  | Yargs.Array items => Ok items
  | _ => Throw TypeError
  end.

(** [(notPatterns || []).map(String)]. *)
Definition exclusionArgs (argv : gmap string Yargs.value)
  : result (list string) :=
  match Yargs.get argv "not" with
  | Yargs.Array items => Ok items
  | Yargs.Undefined | Yargs.Bool false | Yargs.Text EmptyString => Ok []
  | _ => Throw TypeError
  end.

Definition globs_of (args : list string) : list string :=
  List.filter (fun p => negb (is_tag p)) args.

Definition tags_of (args : list string) : list string :=
  List.map Str.substring1 (List.filter is_tag args).

(** *** The ignore ruleset *)

(** The destructuring at the head of [main] reads the property
    [ignoreGitignore] of [argv]. *)
Definition ignoreGitignore (argv : gmap string Yargs.value) : Yargs.value :=
  Yargs.get argv "ignoreGitignore".

Definition gitignorePath : string := ".gitignore".

Definition build_ig (w : world) (argv : gmap string Yargs.value)
  : result (list Ignore.rule) :=
  let ig := [] in
  let ig' :=
    if negb (Yargs.truthy (ignoreGitignore argv)) then
      if existsSync w gitignorePath then
        match readFileSync w gitignorePath with
        | Ok gitignoreContent => Ok (Ignore.add gitignoreContent ig)
        | Throw e => Throw e
        end
      else Ok ig
    else Ok ig in
  match ig' with
  | Ok rules => Ok (Ignore.add "node_modules" rules)
  | Throw e => Throw e
  end.

(** *** Selection *)

Definition allFiles (w : world) : list string :=
  Glob.sync w "**/*" (Glob.Options None true true).

(** [path.relative(process.cwd(), file)] of a path that is already
    relative to the working directory is the path itself. *)
Definition accessibleFiles (w : world) (ig : list Ignore.rule)
  : list string :=
  List.filter (fun file => negb (Ignore.ignores ig file)) (allFiles w).

(** A JavaScript [Set] of strings keeps its elements in the order of
    their first insertion. *)
Definition has (x : string) (s : list string) : bool :=
  existsb (String.eqb x) s.

Definition add (x : string) (s : list string) : list string :=
  if has x s then s else s ++ [x].

Definition delete (x : string) (s : list string) : list string :=
  List.filter (fun y => negb (String.eqb x y)) s.

Definition new_Set (l : list string) : list string :=
  fold_left (fun s x => add x s) l [].

Definition effectivePattern (pattern : string) : string :=
  if negb (Str.includes_char "/" pattern) then "**/" +:+ pattern
  else pattern.

Definition glob_options : Glob.options :=
  Glob.Options (Some "**/node_modules/**") false false.

(** One round of the loop over the inclusion globs; the state is the
    pair of [matchedFiles] and [unmatchedGlobs]. *)
Definition include_glob (w : world) (st : list string * list string)
  (pattern : string) : list string * list string :=
  let '(matchedFiles, unmatchedGlobs) := st in
  let found := Glob.sync w (effectivePattern pattern) glob_options in
  if Nat.ltb 0 (List.length found) then
    (fold_left (fun m file => add file m) found matchedFiles,
     delete pattern unmatchedGlobs)
  else st.

(** Two states of the loop that hold the same files and the same
    unmatched globs. *)
Definition same_state (st1 st2 : list string * list string) : Prop :=
  (forall y, In y (fst st1) <-> In y (fst st2)) /\ snd st1 = snd st2.

Definition include_globs (w : world) (inclusionGlobs : list string)
  : list string * list string :=
  if Nat.ltb 0 (List.length inclusionGlobs) then
    fold_left (include_glob w) inclusionGlobs ([], new_Set inclusionGlobs)
  else ([], new_Set inclusionGlobs).

(** The loop over the accessible files: the first tag that the file
    has adds it. *)
Definition include_tags (w : world) (accessible inclusionTags : list string)
  (matchedFiles : list string) : list string :=
  if Nat.ltb 0 (List.length inclusionTags) then
    fold_left
      (fun m file =>
         if existsb (fileHasTag w file) inclusionTags then add file m else m)
      accessible matchedFiles
  else matchedFiles.

(** The one resolve call for all exclusion globs. *)
Definition exclusionSet (w : world) (exclusionGlobs : list string)
  : list string :=
  let effectiveExclusionGlobs := List.map effectivePattern exclusionGlobs in
  new_Set
    (Glob.sync w ("{" +:+ Str.join "," effectiveExclusionGlobs +:+ "}")
               glob_options).

Definition exclude_globs (w : world) (exclusionGlobs finalFiles : list string)
  : list string :=
  if Nat.ltb 0 (List.length exclusionGlobs) then
    List.filter (fun file => negb (has file (exclusionSet w exclusionGlobs)))
                finalFiles
  else finalFiles.

Definition exclude_tags (w : world) (exclusionTags finalFiles : list string)
  : list string :=
  if Nat.ltb 0 (List.length exclusionTags) then
    List.filter
      (fun file => negb (existsb (fileHasTag w file) exclusionTags))
      finalFiles
  else finalFiles.

Record selection : Type := Selection {
  finalFiles : list string;
  unmatchedGlobs : list string
}.

(** From the ruleset and the four argument lists to the final list and
    the globs that matched nothing. *)
Definition select (w : world) (ig : list Ignore.rule)
  (inclusionGlobs inclusionTags exclusionGlobs exclusionTags : list string)
  : selection :=
  let '(matched, unmatched) := include_globs w inclusionGlobs in
  let matchedFiles :=
    include_tags w (accessibleFiles w ig) inclusionTags matched in
  Selection
    (exclude_tags w exclusionTags
       (exclude_globs w exclusionGlobs matchedFiles))
    unmatched.

(** *** Sizes *)

Definition sizes : list string := ["b"; "k"; "M"; "G"; "T"].

(** [Math.floor(Math.log(bytes) / Math.log(k))] for [k = 1024] and a
    positive integer: the exact floor of the logarithm to base 1024.
    The script computes it in double precision, which gives the same
    unless the quotient of the two logarithms falls within a rounding
    error of an integer from below: that happens for the last few
    sizes below 2^50, where the script already finds the index 5. *)
Definition unit_index (bytes : N) : N := (N.log2 bytes / 10)%N.

(** [x.toFixed(2)] for [x = bytes / d], as a number of hundredths: the
    nearest one, the larger of two that are equally near.  A division
    of an integer below 2^53 by a power of two is exact in double
    precision, so [x] is the exact quotient. *)
Definition toFixed2 (bytes d : N) : N := ((200 * bytes + d) / (2 * d))%N.

(** [parseFloat(s) + unit] for the numeral [s] of [h] hundredths: the
    number is printed without trailing zeros. *)
Definition print_hundredths (h : N) : string :=
  let whole := (h / 100)%N in
  let part := (h mod 100)%N in
  if (part =? 0)%N then Str.of_N whole
  else if (part mod 10 =? 0)%N then
    Str.of_N whole +:+ "." +:+ Str.of_N (part / 10)
  else if (part <? 10)%N then Str.of_N whole +:+ ".0" +:+ Str.of_N part
  else Str.of_N whole +:+ "." +:+ Str.of_N part.

(** [formatBytes(bytes)] for the size of a file or a sum of sizes, a
    non-negative integer.  Reading [sizes] beyond its end gives
    [undefined], and the sum of a number and [undefined] is [NaN]. *)
Definition formatBytes (bytes : N) : string :=
  if (bytes =? 0)%N then "0B"
  else
    let k := 1024%N in
    let i := unit_index bytes in
    match nth_error sizes (N.to_nat i) with
    | Some unit => print_hundredths (toFixed2 bytes (k ^ i)) +:+ unit
    | None => "NaN"
    end.

(** *** Output *)

(** The lines the script prints, without their colours:
    - [WarnUnmatched ps]: the patterns [ps] did not match any files;
    - [WarnNoFiles]: no files matched the given criteria;
    - [Progress file size]: one selected file and its size;
    - [Success n total]: [n] files copied to the clipboard;
    - [ErrorHeader], [ErrorDetail]: an unexpected error occurred, and
      the error itself ([full]: the whole error, else its message). *)
Inductive line : Type :=
| WarnUnmatched (patterns : list string)
| WarnNoFiles
| Progress (file size : string)
| Success (count : nat) (total : string)
| ErrorHeader
| ErrorDetail (full : bool) (e : error).

Definition newline : string := String "010" EmptyString.

Definition block (file content : string) : string :=
  "===== " +:+ file +:+ " =====" +:+ newline +:+ content
  +:+ newline +:+ newline.

(** The loop over the final files: the progress lines printed, and
    the buffer and the total unless a call threw. *)
Fixpoint aggregate (w : world) (files : list string)
  (aggregatedContent : string) (totalBytes : N)
  : list line * result (string * N) :=
  match files with
  | [] => ([], Ok (aggregatedContent, totalBytes))
  | file :: rest =>
      match statSync_size w file with
      | Throw e => ([], Throw e)
      | Ok fileSize =>
          let progress := Progress file (formatBytes fileSize) in
          match readFileSync w file with
          | Throw e => ([progress], Throw e)
          | Ok content =>
              let '(out, r) :=
                aggregate w rest (aggregatedContent +:+ block file content)
                          (totalBytes + fileSize)%N in
              (progress :: out, r)
          end
      end
  end.

(** *** [main] *)

Definition bind {A B : Type} (r : result A) (k : A -> result B) : result B :=
  match r with
  | Ok a => k a
  | Throw e => Throw e
  end.

Notation "'call' x := r 'in' k" := (bind r (fun x => k))
  (at level 10, x name, r at level 100, k at level 200).

(** Everything up to the final list. *)
Definition selected (w : world) (argv : gmap string Yargs.value)
  : result selection :=
  call inclusion := inclusionArgs argv in
  call exclusion := exclusionArgs argv in
  call ig := build_ig w argv in
  Ok (select w ig (globs_of inclusion) (tags_of inclusion)
             (globs_of exclusion) (tags_of exclusion)).

Record outcome : Type := Outcome {
  stdout : list line;
  stderr : list line;
  clipboard_after : string;
  exit_code : Z
}.

(** The body of the second [try] of [main]: what it prints, and the
    text it leaves on the clipboard unless it throws. *)
Definition body (w : world) (argv : gmap string Yargs.value)
  : list line * result string :=
  match selected w argv with
  | Throw e => ([], Throw e)
  | Ok sel =>
      let warning :=
        if Nat.ltb 0 (List.length (unmatchedGlobs sel))
        then [WarnUnmatched (unmatchedGlobs sel)] else [] in
      if Nat.eqb (List.length (finalFiles sel)) 0 then
        (warning ++ [WarnNoFiles], Ok (clipboard w))
      else
        match aggregate w (finalFiles sel) EmptyString 0%N with
        | (progress, Throw e) => (warning ++ progress, Throw e)
        | (progress, Ok (aggregatedContent, totalBytes)) =>
            if clipboard_available w then
              (warning ++ progress
                 ++ [Success (List.length (finalFiles sel))
                             (formatBytes totalBytes)],
               Ok aggregatedContent)
            else (warning ++ progress, Throw ClipboardError)
        end
  end.

(** [main] after the arguments are parsed.  The [catch] prints the
    error and exits with status 1; a run that ends without it exits
    with status 0. *)
Definition main (w : world) (argv : gmap string Yargs.value) : outcome :=
  match body w argv with
  | (out, Ok text) => Outcome out [] text 0
  | (out, Throw e) =>
      Outcome out
              [ErrorHeader; ErrorDetail (Yargs.truthy (Yargs.get argv "verbose")) e]
              (clipboard w) 1
  end.

End Clop.


(** ** Concrete hosts and runs, for the examples *)

Module Examples.

Import Host.

Definition text (content : string) : node :=
  File (Some content) (N.of_nat (String.length content)).

(** A world with the given entries, met by the walk in the order in
    which they are listed, a clipboard that holds the text [old] and a
    working clipboard mechanism. *)
Definition host (entries : list (string * node)) : world :=
  World (list_to_map entries) (List.map fst entries) "old" true.

Definition run (entries : list (string * node)) (c : Yargs.command_line)
  : Clop.outcome :=
  Clop.main (host entries) (Yargs.argv c).

(** A project whose ignore file lists [secrets/]. *)
Definition secrets_host : world :=
  host [(".gitignore", text "secrets/");
        ("secrets", Dir 0);
        ("secrets/config.py", text "# tags: #backend");
        ("app.py", text "# tags: #backend")].

(** Two files, and the same two files met in the other order. *)
Definition two_files : world :=
  host [("a.txt", text "hello"); ("b.txt", text "world")].

Definition two_files_reversed : world :=
  World (snapshot two_files) ["b.txt"; "a.txt"]
        (clipboard two_files) (clipboard_available two_files).

Definition typescript_host : world :=
  host [("a.ts", text "export {}"); ("a.test.ts", text "test()")].


(** A project with an installed package; the file of the package and
    the file of the project carry the same tag. *)
Definition package_host : world :=
  host [("node_modules", Dir 0);
        ("node_modules/pkg", Dir 0);
        ("node_modules/pkg/index.js", text "// tags: #x");
        ("a.js", text "// tags: #x")].

End Examples.

(** ** The specification's reading of exclusion globs *)

Module Spec.

(** As the specification words it: the union of resolving each
    exclusion glob on its own, each one normalised by the same [**/]
    rule. *)
Definition exclusion_union (w : Host.world) (exclusionGlobs : list string)
  : list string :=
  flat_map
    (fun pattern =>
       Glob.sync w (Clop.effectivePattern pattern) Clop.glob_options)
    exclusionGlobs.

End Spec.

(** ** Alignments of a path with a pattern

    What a match of [matchOne] consists of, written out: every segment
    of the pattern with the names of the path it stands for. *)

Module Alignment.

Import Minimatch.








End Alignment.

(** ** The language of a regular expression

    The strings an expression matches as a whole, as a relation; the
    matcher of [JSRegExp] is checked against it in the second part. *)

Module RegexLang.

Import JSRegExp.

Inductive lang : regex -> list ascii -> Prop :=
| lang_Eps : lang Eps []
| lang_AnyChar (c : ascii) : lang AnyChar [c]
| lang_Chr (c : ascii) : lang (Chr c) [c]
| lang_Cat (r1 r2 : regex) (s1 s2 : list ascii) :
    lang r1 s1 -> lang r2 s2 -> lang (Cat r1 r2) (s1 ++ s2)
| lang_Alt_l (r1 r2 : regex) (s : list ascii) :
    lang r1 s -> lang (Alt r1 r2) s
| lang_Alt_r (r1 r2 : regex) (s : list ascii) :
    lang r2 s -> lang (Alt r1 r2) s
| lang_Star_nil (r : regex) : lang (Star r) []
| lang_Star_app (r : regex) (s1 s2 : list ascii) :
    lang r s1 -> lang (Star r) s2 -> lang (Star r) (s1 ++ s2)
| lang_CharSet (negated : bool) (ranges : list (ascii * ascii)) (c : ascii) :
    in_set negated ranges c = true -> lang (CharSet negated ranges) [c].

(** The expression has no assertion: what it matches does not depend
    on the text around the match, and [lang] describes it. *)
Fixpoint assertion_free (r : regex) : bool :=
  match r with
  | Assert _ => false
  | Cat r1 r2 | Alt r1 r2 => assertion_free r1 && assertion_free r2
  | Star r1 => assertion_free r1
  | _ => true
  end.

(** A character that stands for itself in the source of an expression:
    none of the characters with a meaning in the syntax. *)
Definition ordinary (c : ascii) : bool :=
  negb (existsb (Ascii.eqb c)
          ["("; ")"; "|"; "*"; "+"; "?"; "."; "\"; "["; "]"; "{"; "}";
           "^"; "$"]%char).

(** A tag name made of ordinary characters only. *)
Definition literal_tag (tag : string) : bool :=
  forallb ordinary (Str.chars tag).

(** The frame of the parser after a run of ordinary characters. *)
Definition pushed (l : list ascii) (cur : frame) : frame :=
  fold_left (fun f c => push_atom (Chr c) f) l cur.

(** The frame of the parser after the fixed part of the source that
    [fileHasTag] builds, [tags:.*#]. *)
Definition marker_frame : frame :=
  pushed ["#"%char]
    (Frame Void
       (Cat (Cat (Cat (Cat (Chr "t") (Chr "a")) (Chr "g")) (Chr "s")) (Chr ":"))
       (Some (Star AnyChar, Greedy))).

End RegexLang.

(** ** Notions the lemmas on runs are stated with *)

Module Report.

Import Host Clop.

(** What one inclusion glob resolves to. *)
Definition resolve (w : world) (pattern : string) : list string :=
  Glob.sync w (effectivePattern pattern) glob_options.

(** The rule that [ig.add('node_modules')] adds. *)
Definition node_modules_rule : Ignore.rule :=
  Ignore.Rule false false false ["node_modules"].

(** The file is a regular file that can be read. *)
Definition readable (w : world) (file : string) : bool :=
  match snapshot w !! file with
  | Some (File (Some _) _) => true
  | _ => false
  end.

Definition content_of (w : world) (file : string) : string :=
  match snapshot w !! file with
  | Some (File (Some content) _) => content
  | _ => EmptyString
  end.

Definition size_of (w : world) (file : string) : N :=
  match snapshot w !! file with
  | Some (File _ size) => size
  | Some (Dir size) => size
  | None => 0%N
  end.

(** One progress line per file, in order. *)
Definition progress_of (w : world) (files : list string) : list line :=
  List.map (fun file => Progress file (formatBytes (size_of w file))) files.

(** The blocks of the files, in order. *)
Definition buffer_of (w : world) (files : list string) : string :=
  String.concat EmptyString
    (List.map (fun file => block file (content_of w file)) files).

(** The sum of the sizes of the files. *)
Definition total_of (w : world) (files : list string) : N :=
  fold_right (fun file n => (size_of w file + n)%N) 0%N files.

(** The warning about globs that matched nothing, when there is one. *)
Definition warning_of (sel : selection) : list line :=
  if Nat.ltb 0 (List.length (unmatchedGlobs sel))
  then [WarnUnmatched (unmatchedGlobs sel)] else [].

(** A world without a clipboard mechanism. *)
Definition without_clipboard (w : world) : world :=
  World (snapshot w) (walk w) (clipboard w) false.

End Report.

(* ================================================================== *)
(** * Part II: lemmas *)
(* ================================================================== *)

(** ** Sets of strings in insertion order *)

Section SetFacts.

Import Clop.

Lemma has_In (x : string) (s : list string) : has x s = true <-> In x s.
Proof.
  unfold has. rewrite existsb_exists. split.
  - intros (y & Hy & Heq). apply String.eqb_eq in Heq. now subst.
  - intros H. exists x. split; [assumption | apply String.eqb_refl].
Qed.

Lemma has_false (x : string) (s : list string) :
  has x s = false <-> ~ In x s.
Proof.
  rewrite <- has_In. destruct (has x s); split; intros; congruence.
Qed.

Lemma In_add (x y : string) (s : list string) :
  In y (add x s) <-> y = x \/ In y s.
Proof.
  unfold add. destruct (has x s) eqn:E.
  - apply has_In in E. split; [now right | intros [-> | H]; assumption].
  - rewrite in_app_iff. simpl. intuition congruence.
Qed.

Lemma NoDup_add (x : string) (s : list string) : List.NoDup s -> List.NoDup (add x s).
Proof.
  intros H. unfold add. destruct (has x s) eqn:E; [assumption |].
  apply has_false in E.
  apply NoDup_rev in H. rewrite <- (rev_involutive (s ++ [x])).
  apply NoDup_rev. rewrite rev_app_distr. simpl.
  constructor; [now rewrite <- in_rev | assumption].
Qed.

Lemma In_add_all (l s : list string) (y : string) :
  In y (fold_left (fun m x => add x m) l s) <-> In y l \/ In y s.
Proof.
  revert s. induction l as [| x l IH]; intros s; simpl.
  - tauto.
  - rewrite IH, In_add. intuition congruence.
Qed.

Lemma NoDup_add_all (l s : list string) :
  List.NoDup s -> List.NoDup (fold_left (fun m x => add x m) l s).
Proof.
  revert s. induction l as [| x l IH]; intros s H; simpl.
  - assumption.
  - apply IH, NoDup_add, H.
Qed.

Lemma In_new_Set (l : list string) (y : string) : In y (new_Set l) <-> In y l.
Proof. unfold new_Set. rewrite In_add_all. simpl. tauto. Qed.

Lemma NoDup_new_Set (l : list string) : List.NoDup (new_Set l).
Proof. apply NoDup_add_all. constructor. Qed.

End SetFacts.

(** ** The stages of the selection keep the candidate set free of
       duplicates *)

Section NoDuplicates.

Import Clop.
Variable w : Host.world.

Lemma NoDup_include_glob (st : list string * list string) (pattern : string) :
  List.NoDup (fst st) -> List.NoDup (fst (include_glob w st pattern)).
Proof.
  destruct st as [m u]. unfold include_glob. simpl.
  destruct (Nat.ltb 0 _); simpl; [apply NoDup_add_all | trivial].
Qed.

Lemma NoDup_fold_include_glob (l : list string) (st : list string * list string) :
  List.NoDup (fst st) -> List.NoDup (fst (fold_left (include_glob w) l st)).
Proof.
  revert st. induction l as [| p l IH]; intros st H; simpl.
  - assumption.
  - apply IH, NoDup_include_glob, H.
Qed.

Lemma NoDup_include_globs (inclusionGlobs : list string) :
  List.NoDup (fst (include_globs w inclusionGlobs)).
Proof.
  unfold include_globs. destruct (Nat.ltb 0 _).
  - apply NoDup_fold_include_glob. constructor.
  - constructor.
Qed.

Lemma NoDup_include_tags (accessible tags m : list string) :
  List.NoDup m -> List.NoDup (include_tags w accessible tags m).
Proof.
  unfold include_tags. destruct (Nat.ltb 0 _); [| trivial].
  revert m. induction accessible as [| f l IH]; intros m H; simpl.
  - assumption.
  - apply IH. destruct (existsb _ tags); [apply NoDup_add |]; assumption.
Qed.

Lemma NoDup_exclude_globs (globs l : list string) :
  List.NoDup l -> List.NoDup (exclude_globs w globs l).
Proof.
  unfold exclude_globs. destruct (Nat.ltb 0 _); [apply List.NoDup_filter | trivial].
Qed.

Lemma NoDup_exclude_tags (tags l : list string) :
  List.NoDup l -> List.NoDup (exclude_tags w tags l).
Proof.
  unfold exclude_tags. destruct (Nat.ltb 0 _); [apply List.NoDup_filter | trivial].
Qed.

End NoDuplicates.

(** C6. Whatever the inclusion globs and inclusion tags are, and however
    many of them match a path, the final selection holds each path at
    most once. *)
Theorem C6_final_selection_has_no_duplicates
  (w : Host.world) (ig : list Ignore.rule)
  (inclusionGlobs inclusionTags exclusionGlobs exclusionTags : list string) :
  List.NoDup (Clop.finalFiles
           (Clop.select w ig inclusionGlobs inclusionTags
                        exclusionGlobs exclusionTags)).
Proof.
  unfold Clop.select.
  pose proof (NoDup_include_globs w inclusionGlobs) as H.
  destruct (Clop.include_globs w inclusionGlobs) as [matched unmatched].
  simpl in *.
  apply NoDup_exclude_tags, NoDup_exclude_globs, NoDup_include_tags, H.
Qed.

(** ** The tag test *)

Lemma fileHasTag_unreadable (w : Host.world) (filePath tag : string)
  (e : Host.error) :
  Host.readFileSync w filePath = Host.Throw e ->
  Clop.fileHasTag w filePath tag = false.
Proof. intros H. unfold Clop.fileHasTag. now rewrite H. Qed.

Lemma fileHasTag_invalid_regex (w : Host.world) (filePath tag : string) :
  JSRegExp.RegExp_new ("tags:.*#" +:+ tag) = None ->
  Clop.fileHasTag w filePath tag = false.
Proof.
  intros H. unfold Clop.fileHasTag. rewrite H.
  now destruct (Host.readFileSync w filePath).
Qed.

Lemma existsb_all_false {A : Type} (f : A -> bool) (l : list A) :
  (forall x, f x = false) -> existsb f l = false.
Proof.
  intros H. induction l as [| x l IH]; simpl; [reflexivity |].
  now rewrite H, IH.
Qed.

(** C7. When the read of a file fails, the tag test answers [false] for
    every tag instead of raising, and a scan over many files goes on as
    if the file were not there. *)
Theorem C7_tag_test_fails_closed
  (w : Host.world) (filePath : string) (e : Host.error) :
  Host.readFileSync w filePath = Host.Throw e ->
  (forall tag, Clop.fileHasTag w filePath tag = false)
  /\ (forall before after tags matched,
         Clop.include_tags w (before ++ filePath :: after) tags matched
         = Clop.include_tags w (before ++ after) tags matched).
Proof.
  intros H. split.
  - intros tag. eapply fileHasTag_unreadable, H.
  - intros before after tags matched. unfold Clop.include_tags.
    destruct (Nat.ltb 0 _); [| reflexivity].
    rewrite !fold_left_app. simpl.
    rewrite existsb_all_false; [reflexivity |].
    intros tag. eapply fileHasTag_unreadable, H.
Qed.

Lemma C7_witness :
  Host.readFileSync
    (Examples.host [("locked.bin", Host.File None 9); ("a.js", Examples.text "// tags: #x")])
    "locked.bin" = Host.Throw (Host.EACCES "locked.bin")
  /\ Clop.fileHasTag
       (Examples.host [("locked.bin", Host.File None 9); ("a.js", Examples.text "// tags: #x")])
       "locked.bin" "x" = false.
Proof.
  split; [reflexivity |].
  apply (C7_tag_test_fails_closed _ "locked.bin" (Host.EACCES "locked.bin")).
  reflexivity.
Defined.

(** ** Sizes *)

(** The unit of a positive size is the largest power of 1024 that does
    not exceed it. *)
Lemma unit_index_bounds (n : N) :
  (1024 ^ Clop.unit_index (N.succ n) <= N.succ n
   < 1024 ^ (Clop.unit_index (N.succ n) + 1))%N.
Proof.
  unfold Clop.unit_index.
  set (bytes := N.succ n).
  assert (Hpos : (0 < bytes)%N) by (subst bytes; lia).
  destruct (N.log2_spec bytes Hpos) as [Hlo Hhi].
  set (L := N.log2 bytes) in *.
  change 1024%N with (2 ^ 10)%N.
  rewrite <- !N.pow_mul_r.
  assert (Hdiv : (10 * (L / 10) <= L)%N) by (apply N.Div0.mul_div_le).
  assert (Hmod : (L < 10 * N.succ (L / 10))%N)
    by (apply N.mul_succ_div_gt; lia).
  split.
  - apply N.le_trans with (2 ^ L)%N; [| exact Hlo].
    apply N.pow_le_mono_r; lia.
  - apply N.lt_le_trans with (2 ^ N.succ L)%N; [exact Hhi |].
    apply N.pow_le_mono_r; lia.
Qed.

(** C8. The size formatter prints 0 bytes as ["0B"], 1024 bytes as
    ["1k"] and 1536 bytes as ["1.5k"]: the unit of the last two is the
    first power of 1024, the largest that does not exceed them, and the
    scaled value is printed with at most two decimals. *)
Theorem C8_formatBytes_examples :
  Clop.formatBytes 0 = "0B"
  /\ Clop.formatBytes 1024 = "1k"
  /\ Clop.formatBytes 1536 = "1.5k"
  /\ Clop.unit_index 1024 = 1%N
  /\ Clop.unit_index 1536 = 1%N
  /\ Clop.toFixed2 1536 (1024 ^ 1) = 150%N.
Proof. repeat split; reflexivity. Qed.

(** ** An empty selection *)

(** C10. When the final selection is empty the run prints the warnings
    and stops: the clipboard keeps its content, no progress line and no
    success line is printed, nothing goes to the error stream and the
    exit status is zero. *)
Theorem C10_empty_selection_stops_after_warning
  (w : Host.world) (argv : gmap string Yargs.value) (sel : Clop.selection) :
  Clop.selected w argv = Host.Ok sel ->
  Clop.finalFiles sel = [] ->
  Clop.clipboard_after (Clop.main w argv) = Host.clipboard w
  /\ Clop.exit_code (Clop.main w argv) = 0%Z
  /\ Clop.stderr (Clop.main w argv) = []
  /\ Clop.stdout (Clop.main w argv)
     = (if Nat.ltb 0 (List.length (Clop.unmatchedGlobs sel))
        then [Clop.WarnUnmatched (Clop.unmatchedGlobs sel)] else [])
       ++ [Clop.WarnNoFiles]
  /\ (forall l, In l (Clop.stdout (Clop.main w argv)) ->
        match l with
        | Clop.Progress _ _ | Clop.Success _ _ => False
        | _ => True
        end).
Proof.
  intros Hsel Hempty.
  unfold Clop.main, Clop.body. rewrite Hsel, Hempty. simpl.
  repeat split.
  intros l Hl. apply in_app_or in Hl.
  destruct Hl as [Hl | [<- | []]]; [| exact I].
  destruct (Nat.ltb 0 _); [destruct Hl as [<- | []]; exact I | destruct Hl].
Qed.

Lemma C10_witness :
  Clop.clipboard_after
    (Clop.main Examples.two_files
               (Yargs.argv (Yargs.CommandLine ["+missingtag"] [] false false)))
  = "old".
Proof.
  refine (proj1 (C10_empty_selection_stops_after_warning
                   Examples.two_files
                   (Yargs.argv (Yargs.CommandLine ["+missingtag"] [] false false))
                   (Clop.Selection [] []) _ _)); reflexivity.
Defined.

(** ** The [--nogitignore] flag *)

(** The object that yargs returns has no property [ignoreGitignore],
    whatever the command line. *)
Lemma argv_has_no_ignoreGitignore (c : Yargs.command_line) :
  Clop.ignoreGitignore (Yargs.argv c) = Yargs.Undefined.
Proof. reflexivity. Qed.

(** So the flag changes nothing: the ruleset is built as if it were not
    given. *)
Lemma nogitignore_changes_nothing
  (w : Host.world) (positional not_values : list string) (verbose : bool) :
  Clop.build_ig w (Yargs.argv (Yargs.CommandLine positional not_values true verbose))
  = Clop.build_ig w (Yargs.argv (Yargs.CommandLine positional not_values false verbose)).
Proof. reflexivity. Qed.

(** C1, at the run [clop --nogitignore +backend] in a project whose
    ignore file lists [secrets/]: the flag is set in the arguments, but
    the ruleset is built from the ignore file all the same, and the
    tagged file below [secrets/] is left out.  With the built-in rule
    alone it would be selected. *)
Theorem C1_nogitignore_still_reads_the_ignore_file :
  let argv := Yargs.argv (Yargs.CommandLine ["+backend"] [] true false) in
  Yargs.get argv "nogitignore" = Yargs.Bool true
  /\ Clop.build_ig Examples.secrets_host argv
     = Host.Ok (Ignore.add "node_modules" (Ignore.add "secrets/" []))
  /\ Clop.selected Examples.secrets_host argv
     = Host.Ok (Clop.Selection ["app.py"] [])
  /\ Clop.select Examples.secrets_host (Ignore.add "node_modules" [])
                 [] ["backend"] [] []
     = Clop.Selection ["secrets/config.py"; "app.py"] [].
Proof. vm_compute. repeat split; reflexivity. Qed.

(** ** Exclusion globs *)

(** C2, at the single exclusion glob [*.test.ts]: the combined pattern
    [{**/*.test.ts}] has no comma, is not expanded, and matches no
    file; resolving the glob on its own finds the test file, and so
    does the batched call as soon as a second glob is given. *)
Theorem C2_single_exclusion_glob_is_not_expanded :
  Minimatch.braceExpand "{**/*.test.ts}" = ["{**/*.test.ts}"]
  /\ Clop.exclusionSet Examples.typescript_host ["*.test.ts"] = []
  /\ Spec.exclusion_union Examples.typescript_host ["*.test.ts"]
     = ["a.test.ts"]
  /\ Clop.exclusionSet Examples.typescript_host ["*.test.ts"; "*.spec.ts"]
     = ["a.test.ts"].
Proof. vm_compute. repeat split; reflexivity. Qed.

(** C5, at the run [clop "*.txt" --not "*.txt"]: both files match the
    exclusion glob, and both stay in the final selection and reach the
    clipboard. *)
Theorem C5_lone_exclusion_glob_does_not_exclude :
  let argv := Yargs.argv (Yargs.CommandLine ["*.txt"] ["*.txt"] false false) in
  Spec.exclusion_union Examples.two_files ["*.txt"] = ["a.txt"; "b.txt"]
  /\ Clop.selected Examples.two_files argv
     = Host.Ok (Clop.Selection ["a.txt"; "b.txt"] [])
  /\ Clop.stdout (Clop.main Examples.two_files argv)
     = [Clop.Progress "a.txt" "5b"; Clop.Progress "b.txt" "5b";
        Clop.Success 2 "10b"].
Proof. vm_compute. repeat split; reflexivity. Qed.

(** ** Order of the output *)

(** C3 fails: the same files met in another order give another final
    list and another buffer. *)
Lemma C3_output_order_follows_the_walk :
  let argv := Yargs.argv (Yargs.CommandLine ["*.txt"] [] false false) in
  Host.snapshot Examples.two_files = Host.snapshot Examples.two_files_reversed
  /\ Permutation (Host.walk Examples.two_files)
                 (Host.walk Examples.two_files_reversed)
  /\ Clop.selected Examples.two_files argv
     = Host.Ok (Clop.Selection ["a.txt"; "b.txt"] [])
  /\ Clop.selected Examples.two_files_reversed argv
     = Host.Ok (Clop.Selection ["b.txt"; "a.txt"] [])
  /\ Clop.clipboard_after (Clop.main Examples.two_files argv)
     <> Clop.clipboard_after (Clop.main Examples.two_files_reversed argv).
Proof.
  split; [reflexivity |].
  split; [apply perm_swap |].
  split; [reflexivity |].
  split; [reflexivity |].
  vm_compute. discriminate.
Qed.

(** ** Hidden files *)


(** *** What the [dot] option changes *)

Section DotOption.

Import Minimatch Alignment.

Lemma matchOne_cons (dot : bool) (f : string) (fr : list string)
  (p : string) (pr : list string) :
  matchOne dot (f :: fr) (p :: pr)
  = if String.eqb p "**" then
      match pr with
      | [] => forallb (swallowable dot) (f :: fr)
      | _ :: _ => swallow dot (fun fs => matchOne dot fs pr) (f :: fr)
      end
    else segment_match dot p f && matchOne dot fr pr.
Proof. reflexivity. Qed.





Lemma skip_cwd_cons (s : string) (l : list string) :
  Glob.skip_cwd (s :: l)
  = if String.eqb s "." then Glob.skip_cwd l else s :: l.
Proof.
  destruct s as [| a s']; [reflexivity |].
  destruct s' as [| b s''];
    destruct a as [[] [] [] [] [] [] [] []]; reflexivity.
Qed.


Lemma swallow_iff (dot : bool) (rest : list string -> bool)
  (file : list string) :
  swallow dot rest file = true
  <-> exists dirs fs, file = dirs ++ fs /\ fs <> []
                      /\ forallb (swallowable dot) dirs = true
                      /\ rest fs = true.
Proof.
  induction file as [| s file IH]; simpl.
  - split; [discriminate |].
    intros (dirs & fs & Heq & Hne & _). symmetry in Heq.
    apply app_eq_nil in Heq. destruct Heq as [_ ->]. contradiction.
  - rewrite orb_true_iff, andb_true_iff, IH. split.
    + intros [H | [Hs (dirs & fs & -> & Hne & Hd & Hr)]].
      * exists [], (s :: file). repeat split; [discriminate | exact H].
      * exists (s :: dirs), fs. repeat split; try assumption.
        simpl. now rewrite Hs.
    + intros (dirs & fs & Heq & Hne & Hd & Hr). destruct dirs as [| d dirs].
      * left. simpl in Heq. now rewrite Heq.
      * right. simpl in Heq. inversion Heq; subst. simpl in Hd.
        apply andb_true_iff in Hd. destruct Hd as [Hs Hd].
        split; [exact Hs |]. exists dirs, fs. auto.
Qed.

(** *** Matches as alignments *)






Lemma matchOne_nil (dot : bool) (p : string) (pr : list string) :
  matchOne dot [] (p :: pr) = false.
Proof. reflexivity. Qed.




End DotOption.



(** ** What the selection depends on *)

Lemma Permutation_filter_bool {A : Type} (f : A -> bool) (l l' : list A) :
  Permutation l l' -> Permutation (List.filter f l) (List.filter f l').
Proof.
  induction 1 as [| x l l' _ IH | x y l | l l' l'' _ IH1 _ IH2]; simpl.
  - constructor.
  - destruct (f x); [now constructor | exact IH].
  - destruct (f x), (f y); try reflexivity. apply perm_swap.
  - now transitivity (List.filter f l').
Qed.

(** Membership in the set built by the tag scan. *)
Lemma In_include_tags (w : Host.world) (accessible tags matched : list string)
  (y : string) :
  In y (Clop.include_tags w accessible tags matched)
  <-> In y matched
      \/ (Nat.ltb 0 (List.length tags) = true /\ In y accessible
          /\ existsb (Clop.fileHasTag w y) tags = true).
Proof.
  unfold Clop.include_tags. destruct (Nat.ltb 0 (List.length tags)).
  - revert matched. induction accessible as [| f l IH]; intros matched; simpl.
    + intuition.
    + rewrite IH. destruct (existsb (Clop.fileHasTag w f) tags) eqn:E.
      * rewrite In_add. intuition (subst; auto).
      * intuition (subst; auto; congruence).
  - intuition discriminate.
Qed.

Lemma In_exclude_globs (w : Host.world) (globs l : list string) (y : string) :
  In y (Clop.exclude_globs w globs l)
  <-> In y l
      /\ (Nat.ltb 0 (List.length globs) = true ->
          ~ In y (Clop.exclusionSet w globs)).
Proof.
  unfold Clop.exclude_globs. destruct (Nat.ltb 0 (List.length globs)).
  - rewrite filter_In, negb_true_iff, has_false. intuition.
  - intuition discriminate.
Qed.

Lemma In_exclude_tags (w : Host.world) (tags l : list string) (y : string) :
  In y (Clop.exclude_tags w tags l)
  <-> In y l
      /\ (Nat.ltb 0 (List.length tags) = true ->
          existsb (Clop.fileHasTag w y) tags = false).
Proof.
  unfold Clop.exclude_tags. destruct (Nat.ltb 0 (List.length tags)).
  - rewrite filter_In, negb_true_iff. intuition.
  - intuition discriminate.
Qed.

Section WalkOrder.

Import Host Clop.

Variables w1 w2 : world.
Hypothesis same_snapshot : snapshot w1 = snapshot w2.

Lemma readFileSync_snapshot (path : string) :
  readFileSync w1 path = readFileSync w2 path.
Proof. unfold readFileSync. now rewrite same_snapshot. Qed.

Lemma statSync_snapshot (path : string) :
  statSync_size w1 path = statSync_size w2 path.
Proof. unfold statSync_size. now rewrite same_snapshot. Qed.

Lemma fileHasTag_snapshot (path tag : string) :
  fileHasTag w1 path tag = fileHasTag w2 path tag.
Proof. unfold fileHasTag. now rewrite readFileSync_snapshot. Qed.

Lemma has_tag_snapshot (path : string) (tags : list string) :
  existsb (fileHasTag w1 path) tags = existsb (fileHasTag w2 path) tags.
Proof.
  induction tags as [| t l IH]; simpl; [reflexivity |].
  now rewrite fileHasTag_snapshot, IH.
Qed.

Lemma build_ig_snapshot (argv : gmap string Yargs.value) :
  build_ig w1 argv = build_ig w2 argv.
Proof.
  unfold build_ig, existsSync.
  now rewrite readFileSync_snapshot, same_snapshot.
Qed.

Lemma selects_snapshot (pattern : string) (opts : Glob.options)
  (path : string) :
  Glob.selects w1 pattern opts path = Glob.selects w2 pattern opts path.
Proof. unfold Glob.selects, is_file. now rewrite same_snapshot. Qed.

(** The buffer is a function of the snapshot and the final list. *)
Lemma aggregate_snapshot (files : list string) (content : string)
  (total : N) :
  aggregate w1 files content total = aggregate w2 files content total.
Proof.
  revert content total.
  induction files as [| f l IH]; intros content total; simpl.
  - reflexivity.
  - rewrite statSync_snapshot, readFileSync_snapshot.
    destruct (statSync_size w2 f); [| reflexivity].
    destruct (readFileSync w2 f); [| reflexivity].
    now rewrite IH.
Qed.

Hypothesis same_files : Permutation (walk w1) (walk w2).

Lemma sync_Permutation (pattern : string) (opts : Glob.options) :
  Permutation (Glob.sync w1 pattern opts) (Glob.sync w2 pattern opts).
Proof.
  unfold Glob.sync.
  rewrite (filter_ext _ _ (selects_snapshot pattern opts)).
  now apply Permutation_filter_bool.
Qed.

Lemma In_sync (pattern : string) (opts : Glob.options) (y : string) :
  In y (Glob.sync w1 pattern opts) <-> In y (Glob.sync w2 pattern opts).
Proof.
  split; apply Permutation_in;
    [| symmetry]; apply sync_Permutation.
Qed.

Lemma accessibleFiles_Permutation (ig : list Ignore.rule) :
  Permutation (accessibleFiles w1 ig) (accessibleFiles w2 ig).
Proof. apply Permutation_filter_bool, sync_Permutation. Qed.

Lemma include_glob_same (st1 st2 : list string * list string)
  (pattern : string) :
  same_state st1 st2 ->
  same_state (include_glob w1 st1 pattern) (include_glob w2 st2 pattern).
Proof.
  destruct st1 as [m1 u1], st2 as [m2 u2]. intros [Hm Hu].
  simpl in Hm, Hu. subst u2. unfold include_glob.
  rewrite (Permutation_length
             (sync_Permutation (effectivePattern pattern) glob_options)).
  destruct (Nat.ltb 0 _); split; simpl; try reflexivity; try exact Hm.
  intros y. rewrite !In_add_all, In_sync, Hm. reflexivity.
Qed.

Lemma include_globs_same (inclusionGlobs : list string) :
  same_state (include_globs w1 inclusionGlobs)
             (include_globs w2 inclusionGlobs).
Proof.
  unfold include_globs.
  assert (Hfold : forall l st1 st2, same_state st1 st2 ->
            same_state (fold_left (include_glob w1) l st1)
                       (fold_left (include_glob w2) l st2)).
  { induction l as [| p l IH]; intros st1 st2 H; simpl; [exact H |].
    apply IH, include_glob_same, H. }
  destruct (Nat.ltb 0 _); [apply Hfold |]; split; simpl; tauto.
Qed.

Lemma exclusionSet_same (exclusionGlobs : list string) (y : string) :
  In y (exclusionSet w1 exclusionGlobs)
  <-> In y (exclusionSet w2 exclusionGlobs).
Proof. unfold exclusionSet. rewrite !In_new_Set. apply In_sync. Qed.

(** The final lists hold the same files, and the unmatched globs are
    the same. *)
Lemma select_same (ig : list Ignore.rule)
  (inclusionGlobs inclusionTags exclusionGlobs exclusionTags : list string) :
  Permutation
    (finalFiles (select w1 ig inclusionGlobs inclusionTags
                        exclusionGlobs exclusionTags))
    (finalFiles (select w2 ig inclusionGlobs inclusionTags
                        exclusionGlobs exclusionTags))
  /\ unmatchedGlobs (select w1 ig inclusionGlobs inclusionTags
                            exclusionGlobs exclusionTags)
     = unmatchedGlobs (select w2 ig inclusionGlobs inclusionTags
                              exclusionGlobs exclusionTags).
Proof.
  unfold select.
  pose proof (include_globs_same inclusionGlobs) as [Hm Hu].
  pose proof (NoDup_include_globs w1 inclusionGlobs) as Hn1.
  pose proof (NoDup_include_globs w2 inclusionGlobs) as Hn2.
  destruct (include_globs w1 inclusionGlobs) as [m1 u1].
  destruct (include_globs w2 inclusionGlobs) as [m2 u2].
  simpl in *. split; [| exact Hu].
  apply Stdlib.Sorting.Permutation.NoDup_Permutation.
  - now apply NoDup_exclude_tags, NoDup_exclude_globs, NoDup_include_tags.
  - now apply NoDup_exclude_tags, NoDup_exclude_globs, NoDup_include_tags.
  - intros y.
    rewrite !In_exclude_tags, !In_exclude_globs, !In_include_tags.
    rewrite Hm, exclusionSet_same, !has_tag_snapshot.
    assert (Hacc : In y (accessibleFiles w1 ig)
                   <-> In y (accessibleFiles w2 ig)).
    { split; apply Permutation_in;
        [| symmetry]; apply accessibleFiles_Permutation. }
    rewrite Hacc. reflexivity.
Qed.

End WalkOrder.

(** C3, amended.  For one snapshot of the file system and one argument
    list, two runs whose walks meet the files in different orders select
    the same files, each once, and report the same unmatched globs; and
    the buffer is a function of the snapshot and of the final list.  The
    final list itself is in the order of the walk: nothing sorts it. *)
Theorem C3_selection_is_the_same_set_for_every_walk
  (w1 w2 : Host.world) (argv : gmap string Yargs.value) :
  Host.snapshot w1 = Host.snapshot w2 ->
  Permutation (Host.walk w1) (Host.walk w2) ->
  match Clop.selected w1 argv, Clop.selected w2 argv with
  | Host.Ok s1, Host.Ok s2 =>
      Permutation (Clop.finalFiles s1) (Clop.finalFiles s2)
      /\ Clop.unmatchedGlobs s1 = Clop.unmatchedGlobs s2
  | Host.Throw e1, Host.Throw e2 => e1 = e2
  | _, _ => False
  end
  /\ (forall files content total,
         Clop.aggregate w1 files content total
         = Clop.aggregate w2 files content total).
Proof.
  intros Hsnap Hwalk. split; [| now apply aggregate_snapshot].
  unfold Clop.selected, Clop.bind.
  destruct (Clop.inclusionArgs argv) as [inclusion | e]; [| reflexivity].
  destruct (Clop.exclusionArgs argv) as [exclusion | e]; [| reflexivity].
  rewrite (build_ig_snapshot w1 w2 Hsnap).
  destruct (Clop.build_ig w2 argv) as [ig | e]; [| reflexivity].
  now apply select_same.
Qed.

Lemma C3_witness :
  Permutation ["a.txt"; "b.txt"] ["b.txt"; "a.txt"].
Proof.
  pose proof (C3_selection_is_the_same_set_for_every_walk
                Examples.two_files Examples.two_files_reversed
                (Yargs.argv (Yargs.CommandLine ["*.txt"] [] false false))
                eq_refl (perm_swap "b.txt" "a.txt" [])) as H.
  exact (proj1 (proj1 H)).
Defined.

(** ** The batched exclusion call with two or more globs

    With at least two patterns, none of which has a brace or a comma of
    its own, the combined pattern is an alternation of exactly the
    patterns, and the one call finds what the separate calls find. *)

Section Batching.

Import Minimatch.

Lemma chars_append (a b : string) :
  Str.chars (a +:+ b) = Str.chars a ++ Str.chars b.
Proof.
  unfold Str.chars. induction a as [| c a IH]; simpl; [reflexivity |].
  now rewrite IH.
Qed.

Lemma of_chars_chars (s : string) : Str.of_chars (Str.chars s) = s.
Proof. apply string_of_list_ascii_of_string. Qed.

Lemma plain_chars_cons (c : ascii) (s : list ascii) :
  plain_chars (c :: s) = true ->
  Ascii.eqb c "{" = false /\ Ascii.eqb c "}" = false
  /\ Ascii.eqb c "," = false /\ plain_chars s = true.
Proof.
  unfold plain_chars. simpl. intros H.
  apply andb_true_iff in H. destruct H as [Hc Hs].
  apply negb_true_iff in Hc. rewrite orb_false_r in Hc.
  apply orb_false_iff in Hc. destruct Hc as [H1 Hc].
  apply orb_false_iff in Hc. destruct Hc as [H2 H3].
  auto.
Qed.

Lemma plain_no_braces (s : list ascii) :
  plain_chars s = true -> no_braces s = true.
Proof.
  induction s as [| c s IH]; [reflexivity |].
  intros H. apply plain_chars_cons in H. destruct H as (H1 & H2 & _ & Hs).
  simpl. rewrite H1, H2. simpl. now apply IH.
Qed.

Lemma no_braces_cons (c : ascii) (s : list ascii) :
  no_braces (c :: s) = true ->
  Ascii.eqb c "{" = false /\ Ascii.eqb c "}" = false /\ no_braces s = true.
Proof.
  simpl. intros H. apply andb_true_iff in H. destruct H as [Hc Hs].
  apply andb_true_iff in Hc. destruct Hc as [H1 H2].
  apply negb_true_iff in H1, H2. auto.
Qed.

Lemma no_braces_app (a b : list ascii) :
  no_braces (a ++ b) = no_braces a && no_braces b.
Proof. apply forallb_app. Qed.

Lemma close_brace_no_braces (s rest : list ascii) :
  no_braces s = true -> close_brace 0 (s ++ "}"%char :: rest) = Some (s, rest).
Proof.
  induction s as [| c s IH]; intros H; [reflexivity |].
  apply no_braces_cons in H. destruct H as (H1 & H2 & Hs).
  simpl. rewrite H2, H1, (IH Hs). reflexivity.
Qed.

Lemma balanced_no_braces (s : list ascii) :
  no_braces s = true -> balanced s = None.
Proof.
  induction s as [| c s IH]; intros H; [reflexivity |].
  apply no_braces_cons in H. destruct H as (H1 & _ & Hs).
  simpl. now rewrite H1, (IH Hs).
Qed.

Lemma balanced_embrace (body : list ascii) :
  no_braces body = true -> balanced (embrace body) = Some ([], body, []).
Proof.
  intros H. unfold embrace. simpl.
  now rewrite (close_brace_no_braces body [] H).
Qed.

Lemma parseCommaParts_plain (s : list ascii) :
  plain_chars s = true -> parseCommaParts 0 s = [s].
Proof.
  induction s as [| c s IH]; intros H; [reflexivity |].
  apply plain_chars_cons in H. destruct H as (H1 & H2 & H3 & Hs).
  simpl. rewrite H3, H1, H2. simpl. now rewrite (IH Hs).
Qed.

Lemma parseCommaParts_comma (s rest : list ascii) :
  plain_chars s = true ->
  parseCommaParts 0 (s ++ ","%char :: rest) = s :: parseCommaParts 0 rest.
Proof.
  induction s as [| c s IH]; intros H; [reflexivity |].
  apply plain_chars_cons in H. destruct H as (H1 & H2 & H3 & Hs).
  simpl. rewrite H3, H1, H2. simpl. now rewrite (IH Hs).
Qed.

Lemma join_cons (p q : string) (ps : list string) :
  Str.join "," (p :: q :: ps) = p +:+ "," +:+ Str.join "," (q :: ps).
Proof. reflexivity. Qed.

Lemma parts_of_join (p : string) (ps : list string) :
  Forall (fun x => plain x = true) (p :: ps) ->
  parseCommaParts 0 (Str.chars (Str.join "," (p :: ps)))
  = List.map Str.chars (p :: ps).
Proof.
  revert p. induction ps as [| q ps IH]; intros p H.
  - inversion H; subst. simpl. now apply parseCommaParts_plain.
  - inversion H as [| ? ? Hp Hrest]; subst.
    rewrite join_cons, !chars_append.
    change (Str.chars "," ++ Str.chars (Str.join "," (q :: ps)))
      with (","%char :: Str.chars (Str.join "," (q :: ps))).
    rewrite (parseCommaParts_comma _ _ Hp), (IH q Hrest). reflexivity.
Qed.

Lemma join_no_braces (p : string) (ps : list string) :
  Forall (fun x => plain x = true) (p :: ps) ->
  no_braces (Str.chars (Str.join "," (p :: ps))) = true.
Proof.
  revert p. induction ps as [| q ps IH]; intros p H.
  - inversion H; subst. now apply plain_no_braces.
  - inversion H as [| ? ? Hp Hrest]; subst.
    rewrite join_cons, !chars_append, !no_braces_app.
    rewrite (plain_no_braces _ Hp), (IH q Hrest). reflexivity.
Qed.

Lemma join_has_comma (p q : string) (ps : list string) :
  has_comma (Str.chars (Str.join "," (p :: q :: ps))) = true.
Proof.
  rewrite join_cons, !chars_append. unfold has_comma.
  rewrite !existsb_app. simpl. apply orb_true_r.
Qed.

Lemma expand_S (fuel : nat) (s : list ascii) :
  expand (S fuel) s
  = match balanced s with
    | None => [s]
    | Some (pre, body, post) =>
        if negb (has_comma body) then
          List.map (fun p => pre ++ embrace body ++ p) (expand fuel post)
        else
          let posts :=
            match post with
            | [] => [[]]
            | _ => expand fuel post
            end in
          match parseCommaParts 0 body with
          | [only] =>
              match List.map embrace (expand fuel only) with
              | [one] => List.map (fun p => pre ++ one ++ p) posts
              | n => product pre (flat_map (expand fuel) n) posts
              end
          | n => product pre (flat_map (expand fuel) n) posts
          end
    end.
Proof. reflexivity. Qed.

Lemma expand_no_braces (fuel : nat) (s : list ascii) :
  no_braces s = true -> expand fuel s = [s].
Proof.
  intros H. destruct fuel; [reflexivity |].
  now rewrite expand_S, (balanced_no_braces s H).
Qed.

Lemma expand_each_plain (fuel : nat) (l : list string) :
  Forall (fun x => plain x = true) l ->
  flat_map (expand fuel) (List.map Str.chars l) = List.map Str.chars l.
Proof.
  induction 1 as [| x l Hx _ IH]; simpl; [reflexivity |].
  rewrite (expand_no_braces fuel _ (plain_no_braces _ Hx)), IH. reflexivity.
Qed.

Lemma product_alone (l : list (list ascii)) : product [] l [[]] = l.
Proof.
  unfold product.
  set (f := fun n : list ascii => List.map (fun p => [] ++ n ++ p) [[]]).
  induction l as [| x l IH]; [reflexivity |].
  change (f x ++ flat_map f l = x :: l). rewrite IH.
  subst f. simpl. now rewrite app_nil_r.
Qed.

Lemma keep_nonempty (l : list string) :
  Forall (fun x => x <> EmptyString) l ->
  List.map Str.of_chars (List.filter nonempty (List.map Str.chars l)) = l.
Proof.
  induction 1 as [| x l Hx _ IH]; simpl; [reflexivity |].
  destruct x as [| c x]; [contradiction |]. simpl.
  f_equal; [| exact IH].
  change (String c (string_of_list_ascii (list_ascii_of_string x)))
    with (String c (Str.of_chars (Str.chars x))).
  now rewrite of_chars_chars.
Qed.

(** The alternation of two or more plain patterns expands to the
    patterns. *)
Lemma braceExpand_batch (p q : string) (ps : list string) :
  Forall (fun x => plain x = true) (p :: q :: ps) ->
  Forall (fun x => x <> EmptyString) (p :: q :: ps) ->
  braceExpand ("{" +:+ Str.join "," (p :: q :: ps) +:+ "}") = p :: q :: ps.
Proof.
  intros Hplain Hne. unfold braceExpand.
  rewrite !chars_append.
  change (Str.chars "{" ++ Str.chars (Str.join "," (p :: q :: ps))
          ++ Str.chars "}")
    with (embrace (Str.chars (Str.join "," (p :: q :: ps)))).
  pose proof (join_no_braces p (q :: ps) Hplain) as Hnb.
  rewrite (balanced_embrace _ Hnb), expand_S, (balanced_embrace _ Hnb).
  rewrite join_has_comma. cbv beta iota zeta delta [negb].
  rewrite (parts_of_join p (q :: ps) Hplain).
  change (List.map Str.chars (p :: q :: ps))
    with (Str.chars p :: Str.chars q :: List.map Str.chars ps).
  cbv iota.
  change (Str.chars p :: Str.chars q :: List.map Str.chars ps)
    with (List.map Str.chars (p :: q :: ps)).
  rewrite (expand_each_plain _ _ Hplain), product_alone.
  now apply keep_nonempty.
Qed.

Lemma braceExpand_plain (x : string) : plain x = true -> braceExpand x = [x].
Proof.
  intros H. unfold braceExpand.
  now rewrite (balanced_no_braces _ (plain_no_braces _ H)).
Qed.

Lemma effectivePattern_plain (p : string) :
  plain p = true ->
  plain (Clop.effectivePattern p) = true
  /\ Clop.effectivePattern p <> EmptyString.
Proof.
  intros H. unfold Clop.effectivePattern.
  destruct (Str.includes_char "/" p) eqn:E; simpl.
  - split; [exact H |]. intros ->. discriminate E.
  - split; [exact H | discriminate].
Qed.

Lemma matches_alternatives (dot : bool) (path : string) (l : list string) :
  Forall (fun x => plain x = true) l ->
  existsb
    (fun alt =>
       matchOne dot (Str.split "/" path) (Glob.skip_cwd (Str.split "/" alt))) l
  = existsb (fun x => Glob.matches dot x path) l.
Proof.
  induction 1 as [| x l Hx _ IH]; simpl; [reflexivity |].
  rewrite IH. unfold Glob.matches at 2.
  rewrite (braceExpand_plain x Hx). simpl. now rewrite orb_false_r.
Qed.

(** For two or more plain exclusion globs the one batched call finds
    exactly the union of the separate calls. *)
Lemma batched_exclusion_is_the_union (w : Host.world)
  (exclusionGlobs : list string) (file : string) :
  2 <= List.length exclusionGlobs ->
  Forall (fun x => plain x = true) exclusionGlobs ->
  In file (Clop.exclusionSet w exclusionGlobs)
  <-> In file (Spec.exclusion_union w exclusionGlobs).
Proof.
  intros Hlen Hplain.
  destruct exclusionGlobs as [| p [| q ps]]; simpl in Hlen; try lia.
  set (globs := p :: q :: ps) in *.
  assert (Heff : Forall (fun x => plain x = true)
                        (List.map Clop.effectivePattern globs)
                 /\ Forall (fun x => x <> EmptyString)
                           (List.map Clop.effectivePattern globs)).
  { clear Hlen. induction Hplain as [| x l Hx _ IH]; simpl.
    - split; constructor.
    - destruct IH as [IH1 IH2], (effectivePattern_plain x Hx).
      split; constructor; assumption. }
  destruct Heff as [Hp Hn].
  unfold Clop.exclusionSet, Spec.exclusion_union.
  rewrite In_new_Set, in_flat_map. unfold Glob.sync.
  rewrite filter_In. unfold Glob.selects at 1, Glob.matches at 1.
  subst globs. simpl List.map in *.
  rewrite (braceExpand_batch _ _ _ Hp Hn), (matches_alternatives _ _ _ Hp).
  split.
  - intros (Hwalk & Hsel).
    apply andb_true_iff in Hsel. destruct Hsel as [Hsel Hfile].
    apply andb_true_iff in Hsel. destruct Hsel as [Hm Hign].
    apply existsb_exists in Hm. destruct Hm as (x & Hx & Hm).
    change (In x (List.map Clop.effectivePattern (p :: q :: ps))) in Hx.
    apply in_map_iff in Hx. destruct Hx as (g & <- & Hg).
    exists g. split; [exact Hg |].
    apply filter_In. split; [exact Hwalk |].
    unfold Glob.selects. now rewrite Hm, Hign, Hfile.
  - intros (g & Hg & Hin). apply filter_In in Hin.
    destruct Hin as (Hwalk & Hsel). split; [exact Hwalk |].
    unfold Glob.selects in Hsel.
    apply andb_true_iff in Hsel. destruct Hsel as [Hsel Hfile].
    apply andb_true_iff in Hsel. destruct Hsel as [Hm Hign].
    rewrite Hign, Hfile, !andb_true_r.
    apply existsb_exists. exists (Clop.effectivePattern g).
    split; [| exact Hm].
    change (In (Clop.effectivePattern g)
               (List.map Clop.effectivePattern (p :: q :: ps))).
    now apply in_map.
Qed.

End Batching.

(** ** Where exclusion does win *)

Section ExclusionWins.

Import Clop.

Variable w : Host.world.
Variable ig : list Ignore.rule.
Variables inclusionGlobs inclusionTags exclusionGlobs exclusionTags
  : list string.

Lemma In_finalFiles (file : string) :
  In file (finalFiles (select w ig inclusionGlobs inclusionTags
                              exclusionGlobs exclusionTags)) ->
  (Nat.ltb 0 (List.length exclusionTags) = true ->
   existsb (fileHasTag w file) exclusionTags = false)
  /\ (Nat.ltb 0 (List.length exclusionGlobs) = true ->
      ~ In file (exclusionSet w exclusionGlobs)).
Proof.
  unfold select.
  destruct (include_globs w inclusionGlobs) as [matched unmatched]. simpl.
  rewrite In_exclude_tags, In_exclude_globs. tauto.
Qed.

(** A file that has one of the exclusion tags is not selected. *)
Lemma exclusion_tag_wins (file tag : string) :
  In tag exclusionTags -> fileHasTag w file tag = true ->
  ~ In file (finalFiles (select w ig inclusionGlobs inclusionTags
                                exclusionGlobs exclusionTags)).
Proof.
  intros Htag Hhas Hin. apply In_finalFiles in Hin. destruct Hin as [Hin _].
  assert (Hex : existsb (fileHasTag w file) exclusionTags = true)
    by (apply existsb_exists; eauto).
  rewrite Hin in Hex; [discriminate |].
  destruct exclusionTags; [destruct Htag | reflexivity].
Qed.

(** A file that the batched exclusion call returns is not selected. *)
Lemma exclusion_set_wins (file : string) :
  exclusionGlobs <> [] -> In file (exclusionSet w exclusionGlobs) ->
  ~ In file (finalFiles (select w ig inclusionGlobs inclusionTags
                                exclusionGlobs exclusionTags)).
Proof.
  intros Hne Hset Hin. apply In_finalFiles in Hin. destruct Hin as [_ Hin].
  apply Hin; [| exact Hset].
  destruct exclusionGlobs; [contradiction | reflexivity].
Qed.

(** With two or more plain exclusion globs, a file that one of them
    matches is not selected. *)
Lemma exclusion_globs_win_in_batches (file : string) :
  2 <= List.length exclusionGlobs ->
  Forall (fun x => Minimatch.plain x = true) exclusionGlobs ->
  In file (Spec.exclusion_union w exclusionGlobs) ->
  ~ In file (finalFiles (select w ig inclusionGlobs inclusionTags
                                exclusionGlobs exclusionTags)).
Proof.
  intros Hlen Hplain Hunion. apply exclusion_set_wins.
  - intros E. rewrite E in Hlen. simpl in Hlen. lia.
  - now apply batched_exclusion_is_the_union.
Qed.

End ExclusionWins.

(** ** The examples stay inside the modelled fragments *)

Lemma examples_in_fragment :
  forallb JSRegExp.in_fragment ["tags:.*#foo("; "tags:.*#a.c";
                                "tags:.*#[a"; "tags:.*#a{2,1}"; "tags:.*#a**";
                                "tags:.*#foo.bar"; "tags:.*#x";
                                "tags:.*#backend"; "tags:.*#missingtag"]
  = true
  /\ forallb Minimatch.in_fragment
       ["**/*"; "**/node_modules/**"; "{**/*.test.ts}"; "{**/*.txt}";
        "**/*.txt"; "**/*.test.ts"; "**/.env*"; "node_modules/pkg/*.js";
        "**/*.js"]
     = true.
Proof. split; reflexivity. Qed.

(** The sets that [\D], [\W] and [\S] stand for inside a class are the
    complements of those of [\d], [\w] and [\s]. *)
Lemma class_complements (c : ascii) :
  JSRegExp.in_set false JSRegExp.not_digits c
  = JSRegExp.in_set true JSRegExp.digits c
  /\ JSRegExp.in_set false JSRegExp.not_word_chars c
     = JSRegExp.in_set true JSRegExp.word_chars c
  /\ JSRegExp.in_set false JSRegExp.not_spaces c
     = JSRegExp.in_set true JSRegExp.spaces c.
Proof. destruct c as [[] [] [] [] [] [] [] []]; repeat split. Qed.

(** ** The scenarios of the specification, run on the embedding *)

(** Inclusion glob [*.txt] with exclusion tag [draft]: exactly [a.txt]. *)
Lemma scenario_exclusion_tag :
  Examples.run
    [("a.txt", Examples.text "hello");
     ("b.txt", Examples.text ("tags: #draft" +:+ Clop.newline +:+ "world"))]
    (Yargs.CommandLine ["*.txt"] ["+draft"] false false)
  = Clop.Outcome [Clop.Progress "a.txt" "5b"; Clop.Success 1 "5b"] []
                 (Clop.block "a.txt" "hello") 0.
Proof. reflexivity. Qed.

(** A tag that no file has: a warning, and exit status zero. *)
Lemma scenario_missing_tag :
  Examples.run
    [("a.txt", Examples.text "hello")]
    (Yargs.CommandLine ["+missingtag"] [] false false)
  = Clop.Outcome [Clop.WarnNoFiles] [] "old" 0.
Proof. reflexivity. Qed.

(** The ignore file lists [secrets/]: the tag scan leaves the file out,
    an inclusion glob that names it still finds it. *)
Lemma scenario_ignored_directory :
  Clop.selected Examples.secrets_host
    (Yargs.argv (Yargs.CommandLine ["+backend"] [] false false))
  = Host.Ok (Clop.Selection ["app.py"] [])
  /\ Clop.selected Examples.secrets_host
       (Yargs.argv (Yargs.CommandLine ["secrets/*.py"] [] false false))
     = Host.Ok (Clop.Selection ["secrets/config.py"] []).
Proof. split; reflexivity. Qed.

(** The tag test is case-sensitive. *)
Lemma scenario_case_sensitive :
  Clop.fileHasTag (Examples.host [("a.js", Examples.text "// tags: #Foo")])
                  "a.js" "foo" = false
  /\ Clop.fileHasTag (Examples.host [("a.js", Examples.text "// tags: #Foo")])
                     "a.js" "Foo" = true.
Proof. split; reflexivity. Qed.

(** A selected file that cannot be read ends the run with status 1 and
    leaves the clipboard as it was. *)
Lemma scenario_unreadable_selected_file :
  Examples.run
    [("a.txt", Examples.text "hello"); ("b.txt", Host.File None 7)]
    (Yargs.CommandLine ["*.txt"] [] false false)
  = Clop.Outcome [Clop.Progress "a.txt" "5b"; Clop.Progress "b.txt" "7b"]
                 [Clop.ErrorHeader;
                  Clop.ErrorDetail false (Host.EACCES "b.txt")]
                 "old" 1.
Proof. reflexivity. Qed.

(* ================================================================== *)
(** * Part III: further lemmas on the script *)
(* ================================================================== *)

(** ** The matcher finds what the language of the expression holds *)

Section RegexSemantics.

Import JSRegExp RegexLang.

Lemma lang_Cat_iff (r1 r2 : regex) (s : list ascii) :
  lang (Cat r1 r2) s
  <-> exists s1 s2, s = s1 ++ s2 /\ lang r1 s1 /\ lang r2 s2.
Proof.
  split.
  - intros H. inversion H; subst. eauto.
  - intros (s1 & s2 & -> & H1 & H2). now constructor.
Qed.

Lemma lang_Alt_iff (r1 r2 : regex) (s : list ascii) :
  lang (Alt r1 r2) s <-> lang r1 s \/ lang r2 s.
Proof.
  split.
  - intros H. inversion H; subst; auto.
  - intros [H | H]; [now apply lang_Alt_l | now apply lang_Alt_r].
Qed.

Lemma nullable_lang (prev next : option ascii) (r : regex) :
  assertion_free r = true ->
  nullable prev next r = true <-> lang r [].
Proof.
  induction r as [| | | c | negated ranges | a | r1 IH1 r2 IH2
                  | r1 IH1 r2 IH2 | r IH]; simpl; intros Hfree.
  - split; [discriminate | intros H; inversion H].
  - split; [constructor | reflexivity].
  - split; [discriminate | intros H; inversion H].
  - split; [discriminate | intros H; inversion H].
  - split; [discriminate | intros H; inversion H].
  - discriminate Hfree.
  - apply andb_true_iff in Hfree. destruct Hfree as [F1 F2].
    rewrite andb_true_iff, (IH1 F1), (IH2 F2). split.
    + intros [H1 H2]. exact (lang_Cat _ _ [] [] H1 H2).
    + intros H. apply lang_Cat_iff in H.
      destruct H as (s1 & s2 & Heq & H1 & H2). symmetry in Heq.
      apply app_eq_nil in Heq. destruct Heq; subst. now split.
  - apply andb_true_iff in Hfree. destruct Hfree as [F1 F2].
    rewrite orb_true_iff, (IH1 F1), (IH2 F2). split.
    + intros [H | H]; [now apply lang_Alt_l | now apply lang_Alt_r].
    + intros H. inversion H; subst; auto.
  - split; [constructor | reflexivity].
Qed.

Lemma lang_cat (r1 r2 : regex) (s : list ascii) :
  lang (cat r1 r2) s <-> lang (Cat r1 r2) s.
Proof.
  assert (Hvoid_l : forall r, lang (Cat Void r) s <-> lang Void s).
  { intros r. split; intros H; inversion H; subst.
    match goal with H : lang Void _ |- _ => inversion H end. }
  assert (Hvoid_r : forall r, lang (Cat r Void) s <-> lang Void s).
  { intros r. split; intros H; inversion H; subst.
    match goal with H : lang Void _ |- _ => inversion H end. }
  assert (Heps_l : forall r, lang (Cat Eps r) s <-> lang r s).
  { intros r. split; intros H.
    - apply lang_Cat_iff in H. destruct H as (s1 & s2 & -> & H1 & H2).
      inversion H1; subst. exact H2.
    - exact (lang_Cat _ _ [] s (lang_Eps) H). }
  assert (Heps_r : forall r, lang (Cat r Eps) s <-> lang r s).
  { intros r. split; intros H.
    - apply lang_Cat_iff in H. destruct H as (s1 & s2 & -> & H1 & H2).
      inversion H2; subst. now rewrite app_nil_r.
    - rewrite <- (app_nil_r s). exact (lang_Cat _ _ s [] H lang_Eps). }
  destruct r1, r2; simpl;
    rewrite ?Hvoid_l, ?Hvoid_r, ?Heps_l, ?Heps_r; reflexivity.
Qed.

Lemma lang_alt (r1 r2 : regex) (s : list ascii) :
  lang (alt r1 r2) s <-> lang (Alt r1 r2) s.
Proof.
  assert (Hl : forall r, lang (Alt Void r) s <-> lang r s).
  { intros r. split; intros H; [| now apply lang_Alt_r].
    inversion H; subst; [| assumption].
    match goal with H : lang Void _ |- _ => inversion H end. }
  assert (Hr : forall r, lang (Alt r Void) s <-> lang r s).
  { intros r. split; intros H; [| now apply lang_Alt_l].
    inversion H; subst; [assumption |].
    match goal with H : lang Void _ |- _ => inversion H end. }
  destruct r1, r2; simpl; rewrite ?Hl, ?Hr; reflexivity.
Qed.

Lemma assertion_free_cat (r1 r2 : regex) :
  assertion_free r1 = true -> assertion_free r2 = true ->
  assertion_free (cat r1 r2) = true.
Proof.
  intros H1 H2. destruct r1, r2; simpl in *;
    rewrite ?H1, ?H2; try reflexivity; try discriminate.
Qed.

Lemma assertion_free_alt (r1 r2 : regex) :
  assertion_free r1 = true -> assertion_free r2 = true ->
  assertion_free (alt r1 r2) = true.
Proof.
  intros H1 H2. destruct r1, r2; simpl in *;
    rewrite ?H1, ?H2; try reflexivity; try discriminate.
Qed.

Lemma assertion_free_deriv (prev : option ascii) (c : ascii) (r : regex) :
  assertion_free r = true -> assertion_free (deriv prev c r) = true.
Proof.
  induction r as [| | | d | negated ranges | a | r1 IH1 r2 IH2
                  | r1 IH1 r2 IH2 | r IH]; simpl; intros Hfree;
    try reflexivity.
  - now destruct (Ascii.eqb c d).
  - now destruct (in_set negated ranges c).
  - apply andb_true_iff in Hfree. destruct Hfree as [F1 F2].
    destruct (nullable prev (Some c) r1);
      auto using assertion_free_cat, assertion_free_alt.
  - apply andb_true_iff in Hfree. destruct Hfree as [F1 F2].
    auto using assertion_free_alt.
  - apply assertion_free_cat; auto.
Qed.

(** A non-empty string of a star begins with a non-empty string of the
    body. *)
Lemma lang_Star_cons (r : regex) (c : ascii) (s : list ascii) :
  lang (Star r) (c :: s) ->
  exists s1 s2, s = s1 ++ s2 /\ lang r (c :: s1) /\ lang (Star r) s2.
Proof.
  intros H. remember (Star r) as r' eqn:Er. remember (c :: s) as t eqn:Et.
  revert c s Et.
  induction H as [| | | | | | | r0 s1 s2 H1 _ H2 IH2 |]; intros c0 s0 Et;
    try discriminate.
  inversion Er; subst r0.
  destruct s1 as [| d s1]; simpl in Et.
  - now apply IH2.
  - inversion Et; subst. eauto.
Qed.

Lemma lang_deriv (prev : option ascii) (c : ascii) (r : regex)
  (s : list ascii) :
  assertion_free r = true ->
  lang (deriv prev c r) s <-> lang r (c :: s).
Proof.
  revert s.
  induction r as [| | | d | negated ranges | a | r1 IH1 r2 IH2
                  | r1 IH1 r2 IH2 | r IH];
    intros s Hfree; simpl.
  - split; intros H; inversion H.
  - split; intros H; inversion H.
  - split; intros H; inversion H; subst; constructor.
  - destruct (Ascii.eqb c d) eqn:E.
    + apply Ascii.eqb_eq in E. subst d.
      split; intros H; inversion H; subst; constructor.
    + apply Ascii.eqb_neq in E.
      split; intros H; inversion H; subst; congruence.
  - destruct (in_set negated ranges c) eqn:E.
    + split; intros H; inversion H; subst; now constructor.
    + split; intros H; inversion H; subst; congruence.
  - discriminate Hfree.
  - simpl in Hfree. apply andb_true_iff in Hfree. destruct Hfree as [F1 F2].
    assert (Hcat : lang (cat (deriv prev c r1) r2) s
                   <-> exists s1 s2, s = s1 ++ s2
                                     /\ lang r1 (c :: s1) /\ lang r2 s2).
    { rewrite lang_cat, lang_Cat_iff. split.
      - intros (s1 & s2 & -> & H1 & H2). apply (IH1 _ F1) in H1. eauto.
      - intros (s1 & s2 & -> & H1 & H2). apply (IH1 _ F1) in H1. eauto. }
    assert (Hsplit : lang (Cat r1 r2) (c :: s)
                     <-> (exists s1 s2, s = s1 ++ s2
                                        /\ lang r1 (c :: s1) /\ lang r2 s2)
                         \/ (lang r1 [] /\ lang r2 (c :: s))).
    { rewrite lang_Cat_iff. split.
      - intros (s1 & s2 & Heq & H1 & H2). destruct s1 as [| d s1].
        + right. simpl in Heq. subst s2. now split.
        + left. simpl in Heq. inversion Heq; subst. eauto.
      - intros [(s1 & s2 & -> & H1 & H2) | [H1 H2]].
        + exists (c :: s1), s2. auto.
        + exists [], (c :: s). auto. }
    rewrite Hsplit. destruct (nullable prev (Some c) r1) eqn:En.
    + rewrite lang_alt, lang_Alt_iff, Hcat, (IH2 _ F2).
      apply (nullable_lang _ _ _ F1) in En. tauto.
    + rewrite Hcat. split; [auto |].
      intros [H | [H _]]; [exact H |].
      apply (nullable_lang prev (Some c) _ F1) in H. congruence.
  - simpl in Hfree. apply andb_true_iff in Hfree. destruct Hfree as [F1 F2].
    rewrite lang_alt, !lang_Alt_iff, (IH1 _ F1), (IH2 _ F2). reflexivity.
  - simpl in Hfree. rewrite lang_cat, lang_Cat_iff. split.
    + intros (s1 & s2 & -> & H1 & H2). apply (IH _ Hfree) in H1.
      exact (lang_Star_app r (c :: s1) s2 H1 H2).
    + intros H. apply lang_Star_cons in H.
      destruct H as (s1 & s2 & -> & H1 & H2). apply (IH _ Hfree) in H1. eauto.
Qed.

(** [matches_prefix] finds a prefix in the language. *)
Lemma matches_prefix_lang (prev : option ascii) (r : regex)
  (s : list ascii) :
  assertion_free r = true ->
  matches_prefix prev r s = true <-> exists p q, s = p ++ q /\ lang r p.
Proof.
  revert prev r. induction s as [| c s IH]; intros prev r Hfree; simpl.
  - rewrite (nullable_lang _ _ _ Hfree). split.
    + intros H. now exists [], [].
    + intros (p & q & Heq & H). symmetry in Heq.
      apply app_eq_nil in Heq. destruct Heq; now subst.
  - rewrite orb_true_iff, (nullable_lang _ _ _ Hfree),
      (IH _ _ (assertion_free_deriv prev c r Hfree)). split.
    + intros [H | (p & q & -> & H)].
      * now exists [], (c :: s).
      * exists (c :: p), q. split; [reflexivity | now apply lang_deriv in H].
    + intros (p & q & Heq & H). destruct p as [| d p].
      * now left.
      * right. simpl in Heq. inversion Heq; subst.
        exists p, q. split; [reflexivity | now apply (lang_deriv prev)].
Qed.

(** [search] finds a substring in the language. *)
Lemma search_lang (prev : option ascii) (r : regex) (s : list ascii) :
  assertion_free r = true ->
  search prev r s = true <-> exists a p q, s = a ++ p ++ q /\ lang r p.
Proof.
  intros Hfree. revert prev. induction s as [| c s IH]; intros prev.
  - change (search prev r []) with (matches_prefix prev r [] || false).
    rewrite orb_false_r, (matches_prefix_lang _ _ _ Hfree). split.
    + intros (p & q & Heq & H). now exists [], p, q.
    + intros (a & p & q & Heq & H). symmetry in Heq.
      apply app_eq_nil in Heq. destruct Heq as [-> Heq].
      now exists p, q.
  - change (search prev r (c :: s))
      with (matches_prefix prev r (c :: s) || search (Some c) r s).
    rewrite orb_true_iff, (matches_prefix_lang _ _ _ Hfree), IH. split.
    + intros [(p & q & Heq & H) | (a & p & q & -> & H)].
      * now exists [], p, q.
      * now exists (c :: a), p, q.
    + intros (a & p & q & Heq & H). destruct a as [| d a].
      * left. now exists p, q.
      * right. simpl in Heq. inversion Heq; subst. now exists a, p, q.
Qed.

End RegexSemantics.

(** ** The expression of a tag of ordinary characters *)

Section LiteralTags.

Import JSRegExp RegexLang.

Lemma parse_ordinary (c : ascii) (s : list ascii) (cur : frame)
  (stack : list frame) :
  ordinary c = true ->
  parse (c :: s) cur stack = parse s (push_atom (Chr c) cur) stack.
Proof.
  intros H.
  destruct c as [[] [] [] [] [] [] [] []]; try discriminate H; reflexivity.
Qed.

Lemma parse_literal (l : list ascii) (cur : frame) :
  forallb ordinary l = true -> parse l cur [] = Some (finish (pushed l cur)).
Proof.
  revert cur. induction l as [| c l IH]; intros cur H; [reflexivity |].
  simpl in H. apply andb_true_iff in H. destruct H as [Hc Hl].
  rewrite (parse_ordinary _ _ _ _ Hc). now apply IH.
Qed.

Lemma alts_pushed (l : list ascii) (cur : frame) :
  alts (pushed l cur) = alts cur.
Proof.
  revert cur. induction l as [| c l IH]; intros cur; [reflexivity |].
  simpl. now rewrite IH.
Qed.

Lemma lang_Chr_iff (c : ascii) (s : list ascii) : lang (Chr c) s <-> s = [c].
Proof. split; [intros H; now inversion H | intros ->; constructor]. Qed.

Lemma lang_flush_pushed (l : list ascii) (cur : frame) (s : list ascii) :
  lang (flush (pushed l cur)) s
  <-> exists s1, s = s1 ++ l /\ lang (flush cur) s1.
Proof.
  revert cur s. induction l as [| c l IH]; intros cur s.
  - simpl. split.
    + intros H. exists s. now rewrite app_nil_r.
    + intros (s1 & -> & H). now rewrite app_nil_r.
  - change (pushed (c :: l) cur) with (pushed l (push_atom (Chr c) cur)).
    rewrite IH.
    change (flush (push_atom (Chr c) cur)) with (cat (flush cur) (Chr c)).
    split.
    + intros (s1 & -> & H). apply lang_cat, lang_Cat_iff in H.
      destruct H as (u & v & -> & Hu & Hv). apply lang_Chr_iff in Hv.
      subst v. exists u. split; [now rewrite <- app_assoc | exact Hu].
    + intros (u & -> & Hu). exists (u ++ [c]).
      split; [now rewrite <- app_assoc |].
      apply lang_cat, lang_Cat_iff. exists u, [c].
      split; [reflexivity | split; [exact Hu | constructor]].
Qed.

Lemma assertion_free_flush_pushed (l : list ascii) (cur : frame) :
  assertion_free (flush cur) = true ->
  assertion_free (flush (pushed l cur)) = true.
Proof.
  revert cur. induction l as [| c l IH]; intros cur H; [exact H |].
  change (pushed (c :: l) cur) with (pushed l (push_atom (Chr c) cur)).
  apply IH.
  change (flush (push_atom (Chr c) cur)) with (cat (flush cur) (Chr c)).
  now apply assertion_free_cat.
Qed.

Lemma lang_Star_AnyChar (s : list ascii) : lang (Star AnyChar) s.
Proof.
  induction s as [| c s IH]; [constructor |].
  exact (lang_Star_app AnyChar [c] s (lang_AnyChar c) IH).
Qed.

Lemma parse_marker (l : list ascii) :
  parse (Str.chars "tags:.*#" ++ l) empty_frame [] = parse l marker_frame [].
Proof. reflexivity. Qed.

Lemma lang_marker (s : list ascii) :
  lang (flush marker_frame) s
  <-> exists mid, s = Str.chars "tags:" ++ mid ++ ["#"%char].
Proof.
  change (flush marker_frame)
    with (Cat (Cat (Cat (Cat (Cat (Cat (Chr "t") (Chr "a")) (Chr "g"))
                             (Chr "s")) (Chr ":")) (Star AnyChar))
              (Chr "#")).
  split.
  - intros H. repeat (apply lang_Cat_iff in H;
                      destruct H as (? & ? & -> & H & ?)).
    repeat match goal with
           | H : lang (Chr _) _ |- _ => apply lang_Chr_iff in H; subst
           end.
    eexists. simpl. reflexivity.
  - intros (mid & ->).
    change (Str.chars "tags:" ++ mid ++ ["#"%char])
      with (((((["t"%char] ++ ["a"%char]) ++ ["g"%char]) ++ ["s"%char])
               ++ [":"%char]) ++ mid ++ ["#"%char]).
    rewrite app_assoc.
    repeat constructor. apply lang_Star_AnyChar.
Qed.

(** The expression built for a tag of ordinary characters matches
    exactly [tags:], anything, [#] and the tag. *)
Lemma RegExp_literal_tag (tag : string) :
  literal_tag tag = true ->
  exists r,
    RegExp_new ("tags:.*#" +:+ tag) = Some r
    /\ assertion_free r = true
    /\ forall s, lang r s
                 <-> exists mid,
                       s = Str.chars "tags:" ++ mid
                           ++ "#"%char :: Str.chars tag.
Proof.
  intros H. unfold RegExp_new.
  rewrite chars_append, parse_marker, (parse_literal _ _ H).
  eexists. split; [reflexivity |].
  unfold finish. rewrite alts_pushed.
  change (alts marker_frame) with Void.
  change (alt Void ?r) with r.
  split; [apply assertion_free_flush_pushed; reflexivity |]. intros s.
  rewrite lang_flush_pushed. split.
  - intros (s1 & -> & H1). apply lang_marker in H1.
    destruct H1 as (mid & ->). exists mid.
    now rewrite <- !app_assoc.
  - intros (mid & ->). exists (Str.chars "tags:" ++ mid ++ ["#"%char]).
    split; [now rewrite <- !app_assoc | apply lang_marker; eauto].
Qed.

Lemma parse_ordinary_app (l rest : list ascii) (cur : frame)
  (stack : list frame) :
  forallb ordinary l = true ->
  parse (l ++ rest) cur stack = parse rest (pushed l cur) stack.
Proof.
  revert cur. induction l as [| c l IH]; intros cur H; [reflexivity |].
  simpl in H. apply andb_true_iff in H. destruct H as [Hc Hl].
  change ((c :: l) ++ rest) with (c :: l ++ rest).
  rewrite (parse_ordinary _ _ _ _ Hc). now apply IH.
Qed.

(** An opening parenthesis at the end of the tag is never closed. *)
Lemma RegExp_unclosed_group (tag : string) :
  literal_tag tag = true ->
  RegExp_new ("tags:.*#" +:+ tag +:+ "(") = None.
Proof.
  intros H. unfold RegExp_new.
  rewrite !chars_append, parse_marker, (parse_ordinary_app _ _ _ _ H).
  reflexivity.
Qed.

(** A bracket at the end of the tag opens a class that is never
    closed. *)
Lemma RegExp_unclosed_class (tag : string) :
  literal_tag tag = true ->
  RegExp_new ("tags:.*#" +:+ tag +:+ "[") = None.
Proof.
  intros H. unfold RegExp_new.
  rewrite !chars_append, parse_marker, (parse_ordinary_app _ _ _ _ H).
  reflexivity.
Qed.

Lemma lang_AnyChar_iff (s : list ascii) : lang AnyChar s <-> exists c, s = [c].
Proof.
  split; [intros H; inversion H; eauto | intros (c & ->); constructor].
Qed.

(** A dot between two runs of ordinary characters stands for any one
    character. *)
Lemma RegExp_dot_tag (t1 t2 : string) :
  literal_tag t1 = true -> literal_tag t2 = true ->
  exists r,
    RegExp_new ("tags:.*#" +:+ t1 +:+ "." +:+ t2) = Some r
    /\ assertion_free r = true
    /\ forall s, lang r s
                 <-> exists mid c,
                       s = Str.chars "tags:" ++ mid
                           ++ "#"%char :: Str.chars t1 ++ c :: Str.chars t2.
Proof.
  intros H1 H2. unfold RegExp_new.
  rewrite !chars_append, parse_marker, (parse_ordinary_app _ _ _ _ H1).
  change (Str.chars "." ++ Str.chars t2) with ("."%char :: Str.chars t2).
  change (parse ("."%char :: Str.chars t2) ?cur [])
    with (parse (Str.chars t2) (push_atom AnyChar cur) []).
  rewrite (parse_literal _ _ H2).
  eexists. split; [reflexivity |].
  unfold finish. rewrite alts_pushed.
  change (alts (push_atom AnyChar ?f)) with (alts f).
  rewrite alts_pushed.
  change (alts marker_frame) with Void.
  change (alt Void ?r) with r.
  split.
  - apply assertion_free_flush_pushed.
    change (flush (push_atom AnyChar ?f)) with (cat (flush f) AnyChar).
    apply assertion_free_cat; [| reflexivity].
    apply assertion_free_flush_pushed. reflexivity.
  - intros s. rewrite lang_flush_pushed.
    change (flush (push_atom AnyChar ?f)) with (cat (flush f) AnyChar).
    split.
    + intros (s1 & -> & H). apply lang_cat, lang_Cat_iff in H.
      destruct H as (u & v & -> & Hu & Hv).
      apply lang_AnyChar_iff in Hv. destruct Hv as (c & ->).
      apply lang_flush_pushed in Hu. destruct Hu as (u1 & -> & Hu).
      apply lang_marker in Hu. destruct Hu as (mid & ->).
      exists mid, c. rewrite <- !app_assoc. reflexivity.
    + intros (mid & c & ->).
      exists (((Str.chars "tags:" ++ mid ++ ["#"%char]) ++ Str.chars t1)
              ++ [c]).
      split; [now rewrite <- !app_assoc |].
      apply lang_cat, lang_Cat_iff.
      exists ((Str.chars "tags:" ++ mid ++ ["#"%char]) ++ Str.chars t1), [c].
      split; [reflexivity |]. split; [| constructor].
      apply lang_flush_pushed.
      exists (Str.chars "tags:" ++ mid ++ ["#"%char]).
      split; [reflexivity | apply lang_marker; eauto].
Qed.

End LiteralTags.

Lemma chars_of_chars (l : list ascii) : Str.chars (Str.of_chars l) = l.
Proof. apply list_ascii_of_string_of_list_ascii. Qed.

Lemma chars_inj (a b : string) : Str.chars a = Str.chars b -> a = b.
Proof.
  intros H. rewrite <- (of_chars_chars a), <- (of_chars_chars b).
  now rewrite H.
Qed.

(** For a tag of ordinary characters the tag test is a search for
    [tags:], anything (line breaks too), [#] and the tag. *)
Lemma fileHasTag_literal_iff
  (w : Host.world) (filePath tag : string) :
  RegexLang.literal_tag tag = true ->
  Clop.fileHasTag w filePath tag = true
  <-> exists content pre mid post,
        Host.readFileSync w filePath = Host.Ok content
        /\ content = pre +:+ "tags:" +:+ mid +:+ "#" +:+ tag +:+ post.
Proof.
  intros Htag. unfold Clop.fileHasTag.
  destruct (RegExp_literal_tag tag Htag) as (r & Hr & Hfree & Hlang).
  rewrite Hr. destruct (Host.readFileSync w filePath) as [content | e].
  - unfold JSRegExp.test. rewrite (search_lang _ _ _ Hfree). split.
    + intros (a & p & q & Heq & Hp). apply Hlang in Hp.
      destruct Hp as (mid & ->).
      exists content, (Str.of_chars a), (Str.of_chars mid), (Str.of_chars q).
      split; [reflexivity |]. apply chars_inj.
      rewrite !chars_append, !chars_of_chars, Heq.
      now rewrite <- !app_assoc.
    + intros (content' & pre & mid & post & Hread & Heq).
      injection Hread as Hsame. rewrite Hsame, Heq.
      exists (Str.chars pre), (Str.chars "tags:" ++ Str.chars mid
                               ++ "#"%char :: Str.chars tag), (Str.chars post).
      split; [| apply Hlang; eauto].
      rewrite !chars_append. now rewrite <- !app_assoc.
  - split; [discriminate |].
    intros (content & pre & mid & post & Hread & _). discriminate Hread.
Qed.

(** X1. For a tag name of ordinary characters, [fileHasTag] answers
    [true] exactly when the file can be read and its text has [tags:]
    and, anywhere after it, [#] followed by the tag name. *)
Theorem X1_tag_test_of_a_literal_tag
  (w : Host.world) (filePath tag : string) :
  RegexLang.literal_tag tag = true ->
  Clop.fileHasTag w filePath tag = true
  <-> exists content pre mid post,
        Host.readFileSync w filePath = Host.Ok content
        /\ content = pre +:+ "tags:" +:+ mid +:+ "#" +:+ tag +:+ post.
Proof. apply fileHasTag_literal_iff. Qed.

Lemma X1_witness :
  Clop.fileHasTag (Examples.host [("b.txt", Examples.text "tags: #draft")])
                  "b.txt" "draft" = true.
Proof.
  apply (proj2 (X1_tag_test_of_a_literal_tag _ "b.txt" "draft" eq_refl)).
  exists "tags: #draft", EmptyString, " ", EmptyString.
  split; reflexivity.
Defined.

(** X2. The tag test is not bounded by words: a file that has a tag has
    every tag that is a beginning of it. *)
Theorem X2_tag_test_is_not_word_bounded
  (w : Host.world) (filePath tag rest : string) :
  RegexLang.literal_tag (tag +:+ rest) = true ->
  Clop.fileHasTag w filePath (tag +:+ rest) = true ->
  Clop.fileHasTag w filePath tag = true.
Proof.
  intros Hlit Hhas.
  assert (Htag : RegexLang.literal_tag tag = true).
  { unfold RegexLang.literal_tag in *. rewrite chars_append, forallb_app in Hlit.
    now apply andb_true_iff in Hlit. }
  apply (fileHasTag_literal_iff w filePath _ Hlit) in Hhas.
  destruct Hhas as (content & pre & mid & post & Hread & Heq).
  apply (fileHasTag_literal_iff w filePath _ Htag).
  exists content, pre, mid, (rest +:+ post). split; [exact Hread |].
  rewrite Heq. apply chars_inj. rewrite !chars_append.
  now rewrite <- !app_assoc.
Qed.

Lemma X2_witness :
  Clop.fileHasTag
    (Examples.host [("a.js", Examples.text "// tags: #frontend")])
    "a.js" "front" = true.
Proof.
  apply (X2_tag_test_is_not_word_bounded _ "a.js" "front" "end");
    reflexivity.
Defined.

(** ** A tag name with characters of the syntax *)

Lemma fileHasTag_dot_iff (w : Host.world) (filePath t1 t2 : string) :
  RegexLang.literal_tag t1 = true ->
  RegexLang.literal_tag t2 = true ->
  Clop.fileHasTag w filePath (t1 +:+ "." +:+ t2) = true
  <-> exists content pre mid c post,
        Host.readFileSync w filePath = Host.Ok content
        /\ content
           = pre +:+ "tags:" +:+ mid +:+ "#" +:+ t1 +:+ String c t2 +:+ post.
Proof.
  intros H1 H2. unfold Clop.fileHasTag.
  destruct (RegExp_dot_tag t1 t2 H1 H2) as (r & Hr & Hfree & Hlang).
  rewrite Hr. destruct (Host.readFileSync w filePath) as [content | e].
  - unfold JSRegExp.test. rewrite (search_lang _ _ _ Hfree). split.
    + intros (a & p & q & Heq & Hp). apply Hlang in Hp.
      destruct Hp as (mid & c & ->).
      exists content, (Str.of_chars a), (Str.of_chars mid), c,
        (Str.of_chars q).
      split; [reflexivity |]. apply chars_inj.
      rewrite !chars_append.
      change (Str.chars (String c t2)) with (c :: Str.chars t2).
      rewrite !chars_of_chars, Heq.
      repeat rewrite <- ?app_assoc, <- ?app_comm_cons. reflexivity.
    + intros (content' & pre & mid & c & post & Hread & Heq).
      injection Hread as Hsame. rewrite Hsame, Heq.
      exists (Str.chars pre),
        (Str.chars "tags:" ++ Str.chars mid
         ++ "#"%char :: Str.chars t1 ++ c :: Str.chars t2),
        (Str.chars post).
      split; [| apply Hlang; eauto].
      rewrite !chars_append.
      change (Str.chars (String c t2)) with (c :: Str.chars t2).
      repeat rewrite <- ?app_assoc, <- ?app_comm_cons. reflexivity.
  - split; [discriminate |].
    intros (content & pre & mid & c & post & Hread & _). discriminate Hread.
Qed.

(** C9. The tag name is spliced into the source of a regular expression
    and read as syntax, for every tag.  Whatever implements the
    expressions, a tag whose source the constructor rejects makes the
    test [false] for every file, and [fileHasTag] is that function over
    the expressions of [JSRegExp].  Every name of ordinary characters
    followed by ["("] or by ["["] is rejected, and so are ["foo("],
    ["[a"], ["a{2,1}"] and ["a**"]: the test is [false] also for a file
    whose text has [tags:] followed by [#foo(].  A dot in a name stands
    for any character: the test of [t1.t2] is [true] exactly for the
    readable files with [tags:] and, after it, [#t1], one character and
    [t2]; the name ["a.c"] matches a file in which [#a.c] does not
    occur. *)
Theorem C9_tag_name_is_regex_syntax :
  (forall (R : Type) (compile : string -> option R)
          (run : R -> string -> bool) (tag : string),
      compile ("tags:.*#" +:+ tag) = None ->
      forall w filePath,
        Clop.fileHasTagWith compile run w filePath tag = false)
  /\ (forall w filePath tag,
         Clop.fileHasTag w filePath tag
         = Clop.fileHasTagWith JSRegExp.RegExp_new JSRegExp.test
             w filePath tag)
  /\ (forall tag,
         JSRegExp.RegExp_new ("tags:.*#" +:+ tag) = None ->
         forall w filePath, Clop.fileHasTag w filePath tag = false)
  /\ (forall tag,
         RegexLang.literal_tag tag = true ->
         forall w filePath,
           Clop.fileHasTag w filePath (tag +:+ "(") = false
           /\ Clop.fileHasTag w filePath (tag +:+ "[") = false)
  /\ (forall t1 t2,
         RegexLang.literal_tag t1 = true ->
         RegexLang.literal_tag t2 = true ->
         forall w filePath,
           Clop.fileHasTag w filePath (t1 +:+ "." +:+ t2) = true
           <-> exists content pre mid c post,
                 Host.readFileSync w filePath = Host.Ok content
                 /\ content
                    = pre +:+ "tags:" +:+ mid +:+ "#" +:+ t1
                          +:+ String c t2 +:+ post)
  /\ List.map (fun tag => JSRegExp.RegExp_new ("tags:.*#" +:+ tag))
       ["foo("; "[a"; "a{2,1}"; "a**"]
     = [None; None; None; None]
  /\ (let w := Examples.host [("lib.js", Examples.text "// tags: #foo( #bar")] in
      Host.readFileSync w "lib.js" = Host.Ok "// tags: #foo( #bar"
      /\ Str.includes "tags: #foo(" "// tags: #foo( #bar" = true
      /\ Clop.fileHasTag w "lib.js" "foo(" = false)
  /\ (let w := Examples.host [("lib.js", Examples.text "// tags: #abc")] in
      Host.readFileSync w "lib.js" = Host.Ok "// tags: #abc"
      /\ Str.includes "#a.c" "// tags: #abc" = false
      /\ Clop.fileHasTag w "lib.js" "a.c" = true).
Proof.
  split.
  { intros R compile run tag H w filePath. unfold Clop.fileHasTagWith.
    rewrite H. now destruct (Host.readFileSync w filePath). }
  split; [reflexivity |].
  split; [intros tag H w filePath; now apply fileHasTag_invalid_regex |].
  split.
  { intros tag H w filePath.
    split; apply fileHasTag_invalid_regex;
      [now apply RegExp_unclosed_group | now apply RegExp_unclosed_class]. }
  split; [intros t1 t2 H1 H2 w filePath; now apply fileHasTag_dot_iff |].
  split; [reflexivity |].
  split; vm_compute; repeat split; reflexivity.
Qed.

Lemma C9_witness :
  JSRegExp.RegExp_new ("tags:.*#" +:+ "a{2,1}") = None
  /\ RegexLang.literal_tag "foo" = true
  /\ Clop.fileHasTag
       (Examples.host [("lib.js", Examples.text "// tags: #a{2,1} #foo(")])
       "lib.js" "a{2,1}" = false
  /\ Clop.fileHasTag
       (Examples.host [("lib.js", Examples.text "// tags: #a{2,1} #foo(")])
       "lib.js" ("foo" +:+ "(") = false
  /\ Clop.fileHasTag
       (Examples.host [("lib.js", Examples.text "// tags: #fooXbar")])
       "lib.js" ("foo" +:+ "." +:+ "bar") = true.
Proof.
  destruct C9_tag_name_is_regex_syntax
    as (_ & _ & Hinvalid & Hopen & Hdot & _).
  split; [reflexivity |]. split; [reflexivity |].
  split; [apply (Hinvalid "a{2,1}"); reflexivity |].
  split; [apply (Hopen "foo"); reflexivity |].
  apply (Hdot "foo" "bar"); [reflexivity | reflexivity |].
  exists "// tags: #fooXbar", "// ", " ", "X"%char, EmptyString.
  split; reflexivity.
Defined.

(** ** Globs and tags among the arguments *)

Section Arguments.
Import Clop.

Lemma is_tag_plus (a : string) :
  is_tag a = true <-> a = "+" +:+ Str.substring1 a.
Proof.
  destruct a as [| c a].
  - split; discriminate.
  - unfold is_tag, Str.starts_with_char, Str.substring1.
    destruct (Ascii.eqb_spec "+" c) as [<- | Hne].
    + split; reflexivity.
    + split; [discriminate |]. intros H. inversion H. congruence.
Qed.

(** X3. Every argument is either a glob or a tag: the two lists
    together are as long as the argument list, the globs are the
    arguments that do not begin with [+], and the tags are the
    arguments that do, without the [+]. *)
Theorem X3_arguments_are_globs_or_tags (args : list string) :
  List.length (globs_of args) + List.length (tags_of args) = List.length args
  /\ (forall g, In g (globs_of args) <-> In g args /\ is_tag g = false)
  /\ (forall t, In t (tags_of args) <-> In ("+" +:+ t) args).
Proof.
  unfold globs_of, tags_of. split; [| split].
  - rewrite length_map. induction args as [| a l IH]; [reflexivity |].
    simpl. destruct (is_tag a); simpl; lia.
  - intros g. rewrite filter_In, negb_true_iff. reflexivity.
  - intros t. rewrite in_map_iff. split.
    + intros (a & <- & Ha). apply filter_In in Ha. destruct Ha as [Hin Htag].
      apply is_tag_plus in Htag. now rewrite <- Htag.
    + intros Hin. exists ("+" +:+ t). split; [reflexivity |].
      apply filter_In. split; [exact Hin | reflexivity].
Qed.

End Arguments.

(** ** The loop over the inclusion globs *)

Section Candidates.
Import Clop Report.
Variable w : Host.world.

Lemma In_delete (x y : string) (s : list string) :
  In y (delete x s) <-> In y s /\ y <> x.
Proof.
  unfold delete. rewrite filter_In, negb_true_iff, String.eqb_neq.
  split; intros [H1 H2]; split; auto.
Qed.

Lemma NoDup_delete (x : string) (s : list string) :
  List.NoDup s -> List.NoDup (delete x s).
Proof. apply List.NoDup_filter. Qed.

Lemma length_pos_nonempty {A : Type} (l : list A) :
  Nat.ltb 0 (List.length l) = true <-> l <> [].
Proof.
  destruct l as [| a l]; split; intros H.
  - discriminate H.
  - now contradiction H.
  - discriminate.
  - reflexivity.
Qed.

Lemma fold_include_glob (l : list string) (m u : list string) :
  (forall f, In f (fst (fold_left (include_glob w) l (m, u)))
             <-> In f m \/ exists p, In p l /\ In f (resolve w p))
  /\ (forall p, In p (snd (fold_left (include_glob w) l (m, u)))
                <-> In p u /\ ~ (In p l /\ resolve w p <> []))
  /\ (List.NoDup u ->
      List.NoDup (snd (fold_left (include_glob w) l (m, u)))).
Proof.
  revert m u. induction l as [| q l IH]; intros m u.
  - simpl. split; [| split].
    + intros f. split; [auto | intros [H | (p & [] & _)]; exact H].
    + intros p. tauto.
    + trivial.
  - change (fold_left (include_glob w) (q :: l) (m, u))
      with (fold_left (include_glob w) l (include_glob w (m, u) q)).
    unfold include_glob at 2 4 6. fold (resolve w q).
    destruct (Nat.ltb 0 (List.length (resolve w q))) eqn:E.
    + apply length_pos_nonempty in E.
      destruct (IH (fold_left (fun m0 file => add file m0) (resolve w q) m)
                   (delete q u)) as (H1 & H2 & H3).
      split; [| split].
      * intros f. rewrite H1, In_add_all. split.
        -- intros [[H | H] | (p & Hp & H)]; eauto.
           ++ right. exists q. split; [now left | exact H].
           ++ right. exists p. split; [now right | exact H].
        -- intros [H | (p & [<- | Hp] & H)]; eauto.
      * intros p. rewrite H2, In_delete. split.
        -- intros [[Hu Hne] Hn]. split; [exact Hu |].
           intros [[Heq | Hl] Hr]; [congruence | tauto].
        -- intros [Hu Hn]. split; [split; [exact Hu |] |].
           ++ intros ->. apply Hn. split; [now left | exact E].
           ++ intros [Hl Hr]. apply Hn. split; [now right | exact Hr].
      * intros Hu. apply H3, NoDup_delete, Hu.
    + assert (Hnil : resolve w q = []).
      { destruct (resolve w q); [reflexivity | discriminate E]. }
      destruct (IH m u) as (H1 & H2 & H3).
      split; [| split].
      * intros f. rewrite H1. split.
        -- intros [H | (p & Hp & H)]; eauto.
           right. exists p. split; [now right | exact H].
        -- intros [H | (p & [<- | Hp] & H)]; eauto.
           rewrite Hnil in H. destruct H.
      * intros p. rewrite H2. split.
        -- intros [Hu Hn]. split; [exact Hu |].
           intros [[<- | Hl] Hr]; [congruence | tauto].
        -- intros [Hu Hn]. split; [exact Hu |].
           intros [Hl Hr]. apply Hn. split; [now right | exact Hr].
      * exact H3.
Qed.

Lemma include_globs_spec (inclusionGlobs : list string) :
  (forall f, In f (fst (include_globs w inclusionGlobs))
             <-> exists p, In p inclusionGlobs /\ In f (resolve w p))
  /\ (forall p, In p (snd (include_globs w inclusionGlobs))
                <-> In p inclusionGlobs /\ resolve w p = [])
  /\ List.NoDup (snd (include_globs w inclusionGlobs)).
Proof.
  unfold include_globs.
  destruct (Nat.ltb 0 (List.length inclusionGlobs)) eqn:E.
  - destruct (fold_include_glob inclusionGlobs [] (new_Set inclusionGlobs))
      as (H1 & H2 & H3).
    split; [| split].
    + intros f. rewrite H1. split; [intros [[] | H]; exact H | auto].
    + intros p. rewrite H2, In_new_Set. split.
      * intros [Hin Hn]. split; [exact Hin |].
        destruct (resolve w p) eqn:Er; [reflexivity |].
        exfalso. apply Hn. split; [exact Hin | discriminate].
      * intros [Hin Hr]. split; [exact Hin |]. intros [_ Hne]. now apply Hne.
    + apply H3, NoDup_new_Set.
  - destruct inclusionGlobs; [| discriminate E]. simpl.
    split; [| split].
    + intros f. split; [intros [] | intros (p & [] & _)].
    + intros p. split; [intros [] | intros [[] _]].
    + constructor.
Qed.

End Candidates.

Lemma existsb_all_false_in {A : Type} (f : A -> bool) (l : list A) :
  (forall x, In x l -> f x = false) -> existsb f l = false.
Proof.
  induction l as [| x l IH]; intros H; [reflexivity |].
  simpl. rewrite (H x (or_introl eq_refl)), IH; [reflexivity |].
  intros y Hy. apply H. now right.
Qed.

(** X5. The globs reported as unmatched are exactly the inclusion globs
    that resolve to no path, each of them once. *)
Theorem X5_unmatched_globs
  (w : Host.world) (ig : list Ignore.rule)
  (inclusionGlobs inclusionTags exclusionGlobs exclusionTags : list string) :
  (forall p,
      In p (Clop.unmatchedGlobs
              (Clop.select w ig inclusionGlobs inclusionTags
                           exclusionGlobs exclusionTags))
      <-> In p inclusionGlobs /\ Report.resolve w p = [])
  /\ List.NoDup (Clop.unmatchedGlobs
                   (Clop.select w ig inclusionGlobs inclusionTags
                                exclusionGlobs exclusionTags)).
Proof.
  unfold Clop.select.
  destruct (include_globs_spec w inclusionGlobs) as (_ & H2 & H3).
  destruct (Clop.include_globs w inclusionGlobs) as [matched unmatched].
  simpl in *. split; assumption.
Qed.

(** Membership in the final list, stage by stage. *)
Lemma final_selection_iff
  (w : Host.world) (ig : list Ignore.rule)
  (inclusionGlobs inclusionTags exclusionGlobs exclusionTags : list string)
  (file : string) :
  In file (Clop.finalFiles
             (Clop.select w ig inclusionGlobs inclusionTags
                          exclusionGlobs exclusionTags))
  <-> ((exists p, In p inclusionGlobs /\ In file (Report.resolve w p))
       \/ (In file (Clop.accessibleFiles w ig)
           /\ exists t, In t inclusionTags
                        /\ Clop.fileHasTag w file t = true))
      /\ (exclusionGlobs <> [] ->
          ~ In file (Clop.exclusionSet w exclusionGlobs))
      /\ (forall t, In t exclusionTags -> Clop.fileHasTag w file t = false).
Proof.
  unfold Clop.select.
  destruct (include_globs_spec w inclusionGlobs) as (H1 & _ & _).
  destruct (Clop.include_globs w inclusionGlobs) as [matched unmatched].
  simpl in *.
  rewrite In_exclude_tags, In_exclude_globs, In_include_tags, H1.
  rewrite !length_pos_nonempty.
  assert (Hinc : (inclusionTags <> []
                  /\ In file (Clop.accessibleFiles w ig)
                  /\ existsb (Clop.fileHasTag w file) inclusionTags = true)
                 <-> (In file (Clop.accessibleFiles w ig)
                      /\ exists t, In t inclusionTags
                                   /\ Clop.fileHasTag w file t = true)).
  { rewrite existsb_exists. split.
    - intros (_ & Ha & Ht). auto.
    - intros (Ha & t & Ht & Hh). split; [| eauto].
      intros ->. destruct Ht. }
  assert (Hexc : (exclusionTags <> [] ->
                  existsb (Clop.fileHasTag w file) exclusionTags = false)
                 <-> (forall t, In t exclusionTags ->
                                Clop.fileHasTag w file t = false)).
  { split.
    - intros H t Ht.
      assert (Hne : exclusionTags <> []) by (intros ->; destruct Ht).
      specialize (H Hne).
      destruct (Clop.fileHasTag w file t) eqn:E; [| reflexivity].
      assert (existsb (Clop.fileHasTag w file) exclusionTags = true)
        by (apply existsb_exists; eauto).
      congruence.
    - intros H _. apply existsb_all_false_in. exact H. }
  rewrite Hinc, Hexc. tauto.
Qed.

(** X6. A path is in the final selection exactly when an inclusion glob
    resolves to it or it is an accessible file with an inclusion tag,
    the batched exclusion call (if there are exclusion globs) does not
    return it, and it has none of the exclusion tags. *)
Theorem X6_final_selection
  (w : Host.world) (ig : list Ignore.rule)
  (inclusionGlobs inclusionTags exclusionGlobs exclusionTags : list string)
  (file : string) :
  In file (Clop.finalFiles
             (Clop.select w ig inclusionGlobs inclusionTags
                          exclusionGlobs exclusionTags))
  <-> ((exists p, In p inclusionGlobs /\ In file (Report.resolve w p))
       \/ (In file (Clop.accessibleFiles w ig)
           /\ exists t, In t inclusionTags
                        /\ Clop.fileHasTag w file t = true))
      /\ (exclusionGlobs <> [] ->
          ~ In file (Clop.exclusionSet w exclusionGlobs))
      /\ (forall t, In t exclusionTags -> Clop.fileHasTag w file t = false).
Proof. apply final_selection_iff. Qed.

(** ** The dependency cache *)

Section NodeModules.
Import Clop Report.

Lemma add_node_modules (rules : list Ignore.rule) :
  Ignore.add "node_modules" rules = rules ++ [node_modules_rule].
Proof. reflexivity. Qed.

Lemma build_ig_ends_with_node_modules (w : Host.world)
  (argv : gmap string Yargs.value) (ig : list Ignore.rule) :
  build_ig w argv = Host.Ok ig -> exists rules, ig = rules ++ [node_modules_rule].
Proof.
  unfold build_ig.
  destruct (negb (Yargs.truthy (ignoreGitignore argv)));
    [destruct (Host.existsSync w gitignorePath);
     [destruct (Host.readFileSync w gitignorePath) |] |];
    intros H; inversion H; rewrite add_node_modules; eauto.
Qed.

Lemma test_one_last (rules : list Ignore.rule) (r : Ignore.rule)
  (path : list string) (is_dir : bool) :
  Ignore.test_one (rules ++ [r]) path is_dir
  = if Ignore.rule_match r path is_dir then negb (Ignore.negative r)
    else Ignore.test_one rules path is_dir.
Proof. unfold Ignore.test_one. now rewrite fold_left_app. Qed.

Lemma last_lower (path : list string) :
  List.last (List.map Ignore.lower path) EmptyString
  = Ignore.lower (List.last path EmptyString).
Proof.
  induction path as [| a [| b path] IH]; [reflexivity | reflexivity |].
  exact IH.
Qed.

Lemma node_modules_rule_match (path : list string) (is_dir : bool) :
  List.last path EmptyString = "node_modules" ->
  Ignore.rule_match node_modules_rule path is_dir = true.
Proof.
  intros Hlast. unfold Ignore.rule_match.
  change (List.map Ignore.lower (Ignore.segments node_modules_rule))
    with ["node_modules"].
  change (Ignore.anchored node_modules_rule) with false.
  change (Ignore.dir_only node_modules_rule) with false.
  cbv iota. rewrite last_lower, Hlast. reflexivity.
Qed.

Lemma last_of_prefix (s d : string) (segs : list string) :
  In s segs ->
  exists k, 1 <= k <= List.length segs /\ List.last (firstn k segs) d = s.
Proof.
  induction segs as [| a l IH]; intros H; [destruct H |].
  destruct H as [-> | H].
  - exists 1. simpl. split; [lia | reflexivity].
  - destruct (IH H) as (k & Hk & Hlast). exists (S k).
    split; [simpl; lia |].
    destruct k as [| k]; [lia |]. destruct l as [| b l]; [destruct H |].
    exact Hlast.
Qed.

(** Every ruleset that [main] builds ignores the paths with a segment
    [node_modules]. *)
Lemma node_modules_ignored
  (w : Host.world) (argv : gmap string Yargs.value) (ig : list Ignore.rule)
  (path : string) :
  build_ig w argv = Host.Ok ig ->
  In "node_modules" (Str.split "/" path) ->
  Ignore.ignores ig path = true
  /\ ~ In path (accessibleFiles w ig).
Proof.
  intros Hig Hin.
  assert (Hign : Ignore.ignores ig path = true).
  { destruct (build_ig_ends_with_node_modules _ _ _ Hig) as (rules & ->).
    unfold Ignore.ignores. apply existsb_exists.
    destruct (last_of_prefix _ EmptyString _ Hin) as (k & Hk & Hlast).
    exists k. split; [apply in_seq; lia |].
    rewrite test_one_last, (node_modules_rule_match _ _ Hlast). reflexivity. }
  split; [exact Hign |].
  unfold accessibleFiles. rewrite filter_In, Hign. intros [_ H]. discriminate H.
Qed.

(** X7. Whatever the arguments and the ignore file, the ruleset that
    [main] builds ignores every path with a segment [node_modules], so
    the tag scan never reads such a file. *)
Theorem X7_node_modules_is_always_ignored
  (w : Host.world) (argv : gmap string Yargs.value) (ig : list Ignore.rule)
  (path : string) :
  build_ig w argv = Host.Ok ig ->
  In "node_modules" (Str.split "/" path) ->
  Ignore.ignores ig path = true
  /\ ~ In path (accessibleFiles w ig).
Proof. apply node_modules_ignored. Qed.

Lemma X7_witness :
  Ignore.ignores (Ignore.add "node_modules" [])
                 "src/node_modules/pkg/index.js" = true.
Proof.
  refine (proj1 (X7_node_modules_is_always_ignored
                   Examples.two_files
                   (Yargs.argv (Yargs.CommandLine ["+x"] [] false false))
                   _ "src/node_modules/pkg/index.js" _ _)).
  - reflexivity.
  - vm_compute. right. now left.
Defined.

Import Minimatch.

Lemma swallow_app (dot : bool) (rest : list string -> bool)
  (pre l : list string) :
  forallb (swallowable dot) pre = true -> l <> [] -> rest l = true ->
  swallow dot rest (pre ++ l) = true.
Proof.
  intros Hpre Hl Hrest. induction pre as [| a pre IH]; simpl.
  - destruct l as [| s l]; [contradiction |]. simpl. now rewrite Hrest.
  - simpl in Hpre. apply andb_true_iff in Hpre. destruct Hpre as [Ha Hpre].
    rewrite Ha, (IH Hpre). apply orb_true_r.
Qed.

Lemma matchOne_globstar (dot : bool) (file : list string) (q : string)
  (pr : list string) :
  file <> [] ->
  matchOne dot file ("**" :: q :: pr)
  = swallow dot (fun fs => matchOne dot fs (q :: pr)) file.
Proof. destruct file; [contradiction | reflexivity]. Qed.

Lemma isIgnored_node_modules (path : string) :
  Glob.isIgnored glob_options path
  = matchOne true (Str.split "/" path) ["**"; "node_modules"; "**"]
    || matchOne true (Str.split "/" path) ["**"; "node_modules"].
Proof.
  transitivity
    ((matchOne true (Str.split "/" path) ["**"; "node_modules"; "**"]
      || false)
     || (matchOne true (Str.split "/" path) ["**"; "node_modules"]
         || false)).
  - reflexivity.
  - now rewrite !orb_false_r.
Qed.

Lemma node_modules_isIgnored (path : string) :
  forallb (swallowable true) (Str.split "/" path) = true ->
  In "node_modules" (Str.split "/" path) ->
  Glob.isIgnored glob_options path = true.
Proof.
  intros Hnames Hin. rewrite isIgnored_node_modules.
  apply in_split in Hin. destruct Hin as (pre & post & Heq).
  rewrite Heq in *. rewrite forallb_app in Hnames.
  apply andb_true_iff in Hnames. destruct Hnames as [Hpre Hpost].
  change (swallowable true "node_modules"
          && forallb (swallowable true) post = true) in Hpost.
  apply andb_true_iff in Hpost. destruct Hpost as [_ Hpost].
  assert (Hne : pre ++ "node_modules" :: post <> [])
    by (destruct pre; discriminate).
  rewrite !(matchOne_globstar _ _ _ _ Hne). apply orb_true_iff.
  destruct post as [| p ps].
  - right. apply swallow_app; [exact Hpre | discriminate | reflexivity].
  - left. apply swallow_app; [exact Hpre | discriminate |].
    rewrite matchOne_cons.
    change (String.eqb "node_modules" "**") with false. cbv iota.
    change (segment_match true "node_modules" "node_modules") with true.
    rewrite andb_true_l, matchOne_cons.
    change (String.eqb "**" "**") with true. cbv iota. exact Hpost.
Qed.

(** X8. A path with a segment [node_modules] is never selected, by
    whatever glob or tag the command line asks for it (for the paths
    of the walk, which are relative to the working directory and whose
    segments are names, not [.] or [..]). *)
Theorem X8_nothing_selected_below_node_modules
  (w : Host.world) (argv : gmap string Yargs.value) (sel : selection)
  (file : string) :
  selected w argv = Host.Ok sel ->
  forallb (swallowable true) (Str.split "/" file) = true ->
  In "node_modules" (Str.split "/" file) ->
  ~ In file (finalFiles sel).
Proof.
  intros Hsel Hnames Hnm Hin. unfold selected, bind in Hsel.
  destruct (inclusionArgs argv) as [inclusion | e]; [| discriminate Hsel].
  destruct (exclusionArgs argv) as [exclusion | e]; [| discriminate Hsel].
  destruct (build_ig w argv) as [ig | e] eqn:Hig; [| discriminate Hsel].
  injection Hsel as <-. apply final_selection_iff in Hin.
  destruct Hin as [[(p & _ & Hres) | (Hacc & _)] _].
  - unfold resolve, Glob.sync in Hres. apply filter_In in Hres.
    destruct Hres as [_ Hres]. unfold Glob.selects in Hres.
    rewrite (node_modules_isIgnored _ Hnames Hnm) in Hres.
    now rewrite andb_false_r in Hres.
  - now apply (node_modules_ignored w argv ig file Hig Hnm).
Qed.

Lemma X8_witness :
  In "node_modules/pkg/index.js" (Host.walk Examples.package_host)
  /\ Glob.matches false "node_modules/pkg/*.js" "node_modules/pkg/index.js"
     = true
  /\ fileHasTag Examples.package_host "node_modules/pkg/index.js" "x" = true
  /\ selected Examples.package_host
       (Yargs.argv
          (Yargs.CommandLine ["node_modules/pkg/*.js"; "**/*.js"; "+x"] []
                             true false))
     = Host.Ok (Selection ["a.js"] ["node_modules/pkg/*.js"])
  /\ ~ In "node_modules/pkg/index.js" ["a.js"].
Proof.
  split; [vm_compute; tauto |]. split; [reflexivity |].
  split; [reflexivity |]. split; [reflexivity |].
  apply (X8_nothing_selected_below_node_modules
           Examples.package_host
           (Yargs.argv
              (Yargs.CommandLine ["node_modules/pkg/*.js"; "**/*.js"; "+x"] []
                                 true false))
           (Selection ["a.js"] ["node_modules/pkg/*.js"])
           "node_modules/pkg/index.js").
  - reflexivity.
  - reflexivity.
  - vm_compute. tauto.
Defined.

End NodeModules.

(** ** The loop over the selected files *)

Section Aggregation.
Import Host Clop Report.
Variable w : world.

Lemma append_assoc (a b c : string) : (a +:+ b) +:+ c = a +:+ b +:+ c.
Proof. apply chars_inj. rewrite !chars_append. now rewrite app_assoc. Qed.

Lemma append_empty_r (a : string) : a +:+ EmptyString = a.
Proof. apply chars_inj. rewrite chars_append. apply app_nil_r. Qed.

Lemma buffer_of_cons (file : string) (files : list string) :
  buffer_of w (file :: files) = block file (content_of w file) +:+ buffer_of w files.
Proof.
  unfold buffer_of. simpl. destruct (List.map _ files) eqn:E.
  - simpl. now rewrite append_empty_r.
  - reflexivity.
Qed.

Lemma readable_reads (file : string) :
  readable w file = true ->
  readFileSync w file = Ok (content_of w file)
  /\ statSync_size w file = Ok (size_of w file).
Proof.
  unfold readable, readFileSync, statSync_size, content_of, size_of.
  destruct (snapshot w !! file) as [[[c |] sz | sz] |]; try discriminate.
  now split.
Qed.

Lemma unreadable_throws (file : string) :
  readable w file = false -> exists e, readFileSync w file = Throw e.
Proof.
  unfold readable, readFileSync.
  destruct (snapshot w !! file) as [[[c |] sz | sz] |]; try discriminate;
    eauto.
Qed.

Lemma aggregate_cons (file : string) (rest : list string) (content : string)
  (total : N) :
  aggregate w (file :: rest) content total
  = match statSync_size w file with
    | Throw e => ([], Throw e)
    | Ok fileSize =>
        match readFileSync w file with
        | Throw e => ([Progress file (formatBytes fileSize)], Throw e)
        | Ok text =>
            let '(out, r) :=
              aggregate w rest (content +:+ block file text)
                        (total + fileSize)%N in
            (Progress file (formatBytes fileSize) :: out, r)
        end
    end.
Proof. reflexivity. Qed.

Lemma aggregate_readable (files : list string) (content : string) (total : N) :
  forallb (readable w) files = true ->
  aggregate w files content total
  = (progress_of w files,
     Ok (content +:+ buffer_of w files, (total + total_of w files)%N)).
Proof.
  revert content total.
  induction files as [| f l IH]; intros content total H.
  - simpl. now rewrite append_empty_r, N.add_0_r.
  - simpl in H. apply andb_true_iff in H. destruct H as [Hf Hl].
    destruct (readable_reads f Hf) as [Hread Hstat].
    rewrite aggregate_cons, Hstat, Hread, (IH _ _ Hl), buffer_of_cons.
    rewrite append_assoc. unfold total_of, progress_of. simpl fold_right.
    simpl List.map. now rewrite N.add_assoc.
Qed.

Lemma aggregate_stops (good rest : list string) (bad : string)
  (content : string) (total : N) :
  forallb (readable w) good = true ->
  readable w bad = false ->
  exists e,
    snd (aggregate w (good ++ bad :: rest) content total) = Throw e
    /\ (e = ENOENT bad \/ e = EACCES bad \/ e = EISDIR bad)
    /\ fst (aggregate w (good ++ bad :: rest) content total)
       = progress_of w good
         ++ (if existsSync w bad then progress_of w [bad] else []).
Proof.
  revert content total.
  induction good as [| f l IH]; intros content total Hgood Hbad.
  - simpl. unfold existsSync, statSync_size, readFileSync, size_of.
    unfold readable in Hbad.
    destruct (snapshot w !! bad) as [[[c |] sz | sz] |] eqn:E;
      try discriminate; simpl; rewrite ?E; eauto 6.
  - simpl in Hgood. apply andb_true_iff in Hgood. destruct Hgood as [Hf Hl].
    destruct (readable_reads f Hf) as [Hread Hstat].
    rewrite <- app_comm_cons, aggregate_cons, Hstat, Hread.
    destruct (IH (content +:+ block f (content_of w f))
                 (total + size_of w f)%N Hl Hbad) as (e & He & Hkind & Hout).
    destruct (aggregate w (l ++ bad :: rest) _ _) as [out r].
    simpl in *. exists e. subst. auto.
Qed.

Lemma aggregate_prints_progress (files : list string) (content : string)
  (total : N) (l : line) :
  In l (fst (aggregate w files content total)) ->
  exists file size, l = Progress file size.
Proof.
  revert content total.
  induction files as [| f fs IH]; intros content total.
  - intros [].
  - rewrite aggregate_cons. destruct (statSync_size w f); [| intros []].
    destruct (readFileSync w f).
    + destruct (aggregate w fs _ _) as [out r] eqn:E. simpl.
      intros [<- | H]; [eauto |].
      apply (IH (content +:+ block f a0) (total + a)%N). now rewrite E.
    + simpl. intros [<- | []]. eauto.
Qed.

End Aggregation.

(** ** Whole runs *)

Section Runs.
Import Host Clop Report.

Lemma body_selected (w : world) (argv : gmap string Yargs.value)
  (sel : selection) :
  selected w argv = Ok sel ->
  body w argv
  = if Nat.eqb (List.length (finalFiles sel)) 0 then
      (warning_of sel ++ [WarnNoFiles], Ok (clipboard w))
    else
      match aggregate w (finalFiles sel) EmptyString 0%N with
      | (progress, Throw e) => (warning_of sel ++ progress, Throw e)
      | (progress, Ok (aggregatedContent, totalBytes)) =>
          if clipboard_available w then
            (warning_of sel ++ progress
               ++ [Success (List.length (finalFiles sel))
                           (formatBytes totalBytes)],
             Ok aggregatedContent)
          else (warning_of sel ++ progress, Throw ClipboardError)
      end.
Proof. intros H. unfold body. now rewrite H. Qed.

(** X10. When every selected file can be read and the clipboard works,
    the run prints the warning (if any), one progress line per file in
    the order of the final list and the success line with the number of
    files and the sum of their sizes, leaves on the clipboard the blocks
    of the files in that order, and exits with status 0. *)
Theorem X10_successful_run (w : world) (argv : gmap string Yargs.value)
  (sel : selection) :
  selected w argv = Ok sel ->
  finalFiles sel <> [] ->
  forallb (readable w) (finalFiles sel) = true ->
  clipboard_available w = true ->
  main w argv
  = Outcome (warning_of sel ++ progress_of w (finalFiles sel)
               ++ [Success (List.length (finalFiles sel))
                           (formatBytes (total_of w (finalFiles sel)))])
            [] (buffer_of w (finalFiles sel)) 0.
Proof.
  intros Hsel Hne Hread Hclip. unfold main.
  rewrite (body_selected _ _ _ Hsel).
  destruct (finalFiles sel) as [| f l] eqn:E; [contradiction |].
  change (Nat.eqb (List.length (f :: l)) 0) with false. cbv iota.
  rewrite (aggregate_readable w _ EmptyString 0%N Hread), Hclip.
  reflexivity.
Qed.

Lemma X10_witness :
  clipboard_after
    (main Examples.two_files
          (Yargs.argv (Yargs.CommandLine ["*.txt"] [] false false)))
  = block "a.txt" "hello" +:+ block "b.txt" "world".
Proof.
  refine (f_equal clipboard_after
            (X10_successful_run
               Examples.two_files
               (Yargs.argv (Yargs.CommandLine ["*.txt"] [] false false))
               (Selection ["a.txt"; "b.txt"] []) _ _ _ _)).
  - reflexivity.
  - discriminate.
  - reflexivity.
  - reflexivity.
Defined.

(** X11. The loop stops at the first selected file that cannot be read:
    the progress lines of the files before it are printed (and its own,
    if it exists), nothing is printed for the files after it, the
    clipboard keeps its content and the exit status is 1. *)
Theorem X11_first_unreadable_file (w : world)
  (argv : gmap string Yargs.value) (sel : selection)
  (good rest : list string) (bad : string) :
  selected w argv = Ok sel ->
  finalFiles sel = good ++ bad :: rest ->
  forallb (readable w) good = true ->
  readable w bad = false ->
  exit_code (main w argv) = 1%Z
  /\ clipboard_after (main w argv) = clipboard w
  /\ stdout (main w argv)
     = warning_of sel ++ progress_of w good
       ++ (if existsSync w bad then progress_of w [bad] else []).
Proof.
  intros Hsel Hfiles Hgood Hbad. unfold main.
  rewrite (body_selected _ _ _ Hsel), Hfiles.
  assert (Hlen : Nat.eqb (List.length (good ++ bad :: rest)) 0 = false)
    by (destruct good; reflexivity).
  rewrite Hlen.
  destruct (aggregate_stops w good rest bad EmptyString 0%N Hgood Hbad)
    as (e & Hthrow & _ & Hout).
  destruct (aggregate w (good ++ bad :: rest) EmptyString 0%N) as [out r].
  simpl in Hthrow, Hout. subst r out. simpl.
  repeat split.
Qed.

Lemma X11_witness :
  exit_code
    (main (Examples.host [("a.txt", Examples.text "hello");
                          ("b.txt", File None 7);
                          ("c.txt", Examples.text "later")])
          (Yargs.argv (Yargs.CommandLine ["*.txt"] [] false false)))
  = 1%Z.
Proof.
  refine (proj1 (X11_first_unreadable_file
                   _ _ (Selection ["a.txt"; "b.txt"; "c.txt"] [])
                   ["a.txt"] ["c.txt"] "b.txt" _ _ _ _)); reflexivity.
Defined.

Lemma no_success_in_warning (sel : selection) (n : nat) (t : string) :
  ~ In (Success n t) (warning_of sel).
Proof.
  unfold warning_of. destruct (Nat.ltb 0 _); simpl; [| tauto].
  intros [H | []]. discriminate H.
Qed.

Lemma no_success_in_progress (w : world) (files : list string)
  (content : string) (total : N) (n : nat) (t : string) :
  ~ In (Success n t) (fst (aggregate w files content total)).
Proof.
  intros H. apply aggregate_prints_progress in H.
  destruct H as (f & s & H). discriminate H.
Qed.

Lemma first_unreadable (w : world) (files : list string) :
  forallb (readable w) files = false ->
  exists good bad rest,
    files = good ++ bad :: rest
    /\ forallb (readable w) good = true /\ readable w bad = false.
Proof.
  induction files as [| f l IH]; [discriminate |].
  simpl. destruct (readable w f) eqn:Hf; simpl.
  - intros H. destruct (IH H) as (good & bad & rest & -> & Hg & Hb).
    exists (f :: good), bad, rest. simpl. rewrite Hf. auto.
  - intros _. exists [], f, l. auto.
Qed.

(** X16. A run that selected something exits with status 0 exactly when
    every selected path is a regular file that can be read and the
    clipboard works; a selected directory, for one, makes it fail. *)
Theorem X16_success_needs_readable_files (w : world)
  (argv : gmap string Yargs.value) (sel : selection) :
  selected w argv = Ok sel ->
  finalFiles sel <> [] ->
  exit_code (main w argv) = 0%Z
  <-> forallb (readable w) (finalFiles sel) = true
      /\ clipboard_available w = true.
Proof.
  intros Hsel Hne. unfold main. rewrite (body_selected _ _ _ Hsel).
  destruct (finalFiles sel) as [| f l] eqn:E; [contradiction |].
  change (Nat.eqb (List.length (f :: l)) 0) with false. cbv iota.
  destruct (forallb (readable w) (f :: l)) eqn:Hread.
  - rewrite (aggregate_readable w _ EmptyString 0%N Hread).
    destruct (clipboard_available w); simpl; split;
      [auto | auto | discriminate | intros [_ H]; discriminate H].
  - destruct (first_unreadable w _ Hread)
      as (good & bad & rest & Hfiles & Hgood & Hbad).
    destruct (aggregate_stops w good rest bad EmptyString 0%N Hgood Hbad)
      as (e & Hthrow & _ & _).
    rewrite Hfiles.
    destruct (aggregate w (good ++ bad :: rest) EmptyString 0%N) as [out r].
    simpl in Hthrow. subst r. simpl. split; [discriminate |].
    intros [H _]. discriminate H.
Qed.

Lemma X16_witness :
  exit_code
    (main (Examples.host [("src", Dir 4096);
                          ("src/a.js", Examples.text "let a")])
          (Yargs.argv (Yargs.CommandLine ["src"] [] false false)))
  <> 0%Z.
Proof.
  intros H.
  apply (X16_success_needs_readable_files
           (Examples.host [("src", Dir 4096);
                           ("src/a.js", Examples.text "let a")])
           (Yargs.argv (Yargs.CommandLine ["src"] [] false false))
           (Selection ["src"] []) eq_refl ltac:(discriminate)) in H.
  destruct H as [H _]. discriminate H.
Defined.

(** X12. A run that got past the parsing of its arguments and does not
    exit with status 0 exits with status 1, leaves the clipboard as it
    was, prints no success line, and prints the error header and the
    error on the error stream. *)
Theorem X12_failed_run_leaves_the_clipboard (w : world)
  (argv : gmap string Yargs.value) :
  exit_code (main w argv) <> 0%Z ->
  exit_code (main w argv) = 1%Z
  /\ clipboard_after (main w argv) = clipboard w
  /\ (forall n t, ~ In (Success n t) (stdout (main w argv)))
  /\ exists e,
       stderr (main w argv)
       = [ErrorHeader;
          ErrorDetail (Yargs.truthy (Yargs.get argv "verbose")) e].
Proof.
  unfold main. destruct (body w argv) as [out [text | e]] eqn:Hbody; simpl.
  - intros H. now contradiction H.
  - intros _. split; [reflexivity |]. split; [reflexivity |].
    split; [| eauto]. intros n t Hin.
    unfold body in Hbody.
    destruct (selected w argv) as [sel | e0].
    + fold (warning_of sel) in Hbody.
      destruct (Nat.eqb (List.length (finalFiles sel)) 0);
        [discriminate Hbody |].
      pose proof (no_success_in_progress w (finalFiles sel) EmptyString 0%N n t)
        as Hprog.
      destruct (aggregate w (finalFiles sel) EmptyString 0%N)
        as [progress [[content total] | e1]]; simpl in Hprog.
      * destruct (clipboard_available w); [discriminate Hbody |].
        injection Hbody as <- _. apply in_app_or in Hin.
        destruct Hin as [Hin | Hin]; [| tauto].
        now apply no_success_in_warning in Hin.
      * injection Hbody as <- _. apply in_app_or in Hin.
        destruct Hin as [Hin | Hin]; [| tauto].
        now apply no_success_in_warning in Hin.
    + injection Hbody as <- _. destruct Hin.
Qed.

Lemma X12_witness :
  clipboard_after
    (main (Examples.host [("a.txt", Examples.text "hello");
                          ("b.txt", File None 7)])
          (Yargs.argv (Yargs.CommandLine ["*.txt"] [] false false)))
  = "old".
Proof.
  refine (proj1 (proj2 (X12_failed_run_leaves_the_clipboard _ _ _))).
  vm_compute. discriminate.
Defined.

(** X13. On a host without a clipboard mechanism the clipboard is never
    changed, and the run exits with status 0 only when nothing was
    selected. *)
Theorem X13_no_clipboard_mechanism (w : world)
  (argv : gmap string Yargs.value) :
  clipboard_available w = false ->
  clipboard_after (main w argv) = clipboard w
  /\ (exit_code (main w argv) = 0%Z ->
      exists sel, selected w argv = Ok sel /\ finalFiles sel = []).
Proof.
  intros Hclip. unfold main, body.
  destruct (selected w argv) as [sel | e]; [| split; [reflexivity |]].
  - destruct (finalFiles sel) as [| f l] eqn:E.
    + simpl. split; [reflexivity |]. intros _. now exists sel.
    + change (Nat.eqb (List.length (f :: l)) 0) with false. cbv iota.
      destruct (aggregate w (f :: l) EmptyString 0%N)
        as [progress [[content total] | e1]]; rewrite ?Hclip; simpl;
        (split; [reflexivity | discriminate]).
  - simpl. discriminate.
Qed.

Lemma X13_witness :
  clipboard_after
    (main (without_clipboard Examples.two_files)
          (Yargs.argv (Yargs.CommandLine ["*.txt"] [] false false)))
  = "old".
Proof.
  refine (proj1 (X13_no_clipboard_mechanism _ _ _)). reflexivity.
Defined.

(** X9. When [.gitignore] exists and cannot be read (a directory, or a
    file without read permission), a run that got past the parsing of
    its arguments fails before anything is selected, unless [argv] has
    a truthy property [ignoreGitignore]: nothing is printed on the
    output, the error goes to the error stream, the clipboard is
    untouched and the exit status is 1.  The declared flag
    [--nogitignore] sets another property and changes nothing; with a
    truthy [ignoreGitignore], which only an option that the script does
    not declare can set, the file is not read and the ruleset is the
    rule for [node_modules] alone. *)
Theorem X9_unreadable_gitignore (w : world)
  (argv : gmap string Yargs.value) (e : error) :
  existsSync w gitignorePath = true ->
  readFileSync w gitignorePath = Throw e ->
  (Yargs.truthy (ignoreGitignore argv) = false ->
   exists e',
     main w argv
     = Outcome [] [ErrorHeader;
                   ErrorDetail (Yargs.truthy (Yargs.get argv "verbose")) e']
               (clipboard w) 1
     /\ (forall inclusion exclusion,
            inclusionArgs argv = Ok inclusion ->
            exclusionArgs argv = Ok exclusion -> e' = e))
  /\ (Yargs.truthy (ignoreGitignore argv) = true ->
      build_ig w argv = Ok [node_modules_rule])
  /\ (forall c,
         main w (Yargs.argv c)
         = Outcome [] [ErrorHeader; ErrorDetail (Yargs.verbose c) e]
                   (clipboard w) 1).
Proof.
  intros Hex Hread.
  assert (Hig : forall argv',
             Yargs.truthy (ignoreGitignore argv') = false ->
             build_ig w argv' = Throw e).
  { intros argv' Hfalse. unfold build_ig.
    rewrite Hfalse. simpl negb. cbv iota. now rewrite Hex, Hread. }
  split; [| split].
  - intros Hfalse. unfold main, body, selected, bind.
    destruct (inclusionArgs argv) as [inclusion | e1].
    + destruct (exclusionArgs argv) as [exclusion | e2].
      * rewrite (Hig _ Hfalse). exists e. split; [reflexivity |]. auto.
      * exists e2. split; [reflexivity |]. intros ? ? _ H. discriminate H.
    + exists e1. split; [reflexivity |]. intros ? ? H. discriminate H.
  - intros Htrue. unfold build_ig. rewrite Htrue. reflexivity.
  - intros [positional nots nogit verbose].
    unfold main, body, selected, bind.
    change (inclusionArgs (Yargs.argv (Yargs.CommandLine positional nots nogit verbose)))
      with (@Ok (list string) positional).
    change (exclusionArgs (Yargs.argv (Yargs.CommandLine positional nots nogit verbose)))
      with (@Ok (list string) nots).
    cbv iota beta.
    rewrite (Hig (Yargs.argv (Yargs.CommandLine positional nots nogit verbose))
                 eq_refl).
    reflexivity.
Qed.

Lemma X9_witness :
  main (Examples.host [(".gitignore", Dir 0);
                       ("a.txt", Examples.text "hello")])
       (Yargs.argv (Yargs.CommandLine ["*.txt"] [] true false))
  = Outcome [] [ErrorHeader; ErrorDetail false (EISDIR ".gitignore")]
            "old" 1
  /\ build_ig (Examples.host [(".gitignore", Dir 0);
                              ("a.txt", Examples.text "hello")])
       (Yargs.with_option "ignoreGitignore" (Yargs.Bool true)
          (Yargs.argv (Yargs.CommandLine ["*.txt"] [] false false)))
     = Ok [node_modules_rule]
  /\ exit_code
       (main (Examples.host [(".gitignore", Dir 0);
                             ("a.txt", Examples.text "hello")])
          (Yargs.with_option "ignoreGitignore" (Yargs.Bool true)
             (Yargs.argv (Yargs.CommandLine ["*.txt"] [] false false))))
     = 0%Z.
Proof.
  split; [| split].
  - exact (proj2 (proj2 (X9_unreadable_gitignore
                           (Examples.host [(".gitignore", Dir 0);
                                           ("a.txt", Examples.text "hello")])
                           (Yargs.argv
                              (Yargs.CommandLine ["*.txt"] [] true false))
                           (EISDIR ".gitignore") eq_refl eq_refl))
                 (Yargs.CommandLine ["*.txt"] [] true false)).
  - exact (proj1 (proj2 (X9_unreadable_gitignore
                           (Examples.host [(".gitignore", Dir 0);
                                           ("a.txt", Examples.text "hello")])
                           (Yargs.with_option "ignoreGitignore"
                              (Yargs.Bool true)
                              (Yargs.argv
                                 (Yargs.CommandLine ["*.txt"] [] false false)))
                           (EISDIR ".gitignore") eq_refl eq_refl))
                 eq_refl).
  - reflexivity.
Defined.

(** X14. The [--verbose] flag changes nothing but the detail of the
    error that is printed: the output, the clipboard and the exit status
    are the same with and without it. *)
Theorem X14_verbose_only_changes_the_error_detail (w : world)
  (positional nots : list string) (nogit verbose verbose' : bool) :
  let o :=
    main w (Yargs.argv (Yargs.CommandLine positional nots nogit verbose)) in
  let o' :=
    main w (Yargs.argv (Yargs.CommandLine positional nots nogit verbose')) in
  stdout o = stdout o'
  /\ clipboard_after o = clipboard_after o'
  /\ exit_code o = exit_code o'
  /\ ((stderr o = [] /\ stderr o' = [])
      \/ exists e, stderr o = [ErrorHeader; ErrorDetail verbose e]
                   /\ stderr o' = [ErrorHeader; ErrorDetail verbose' e]).
Proof.
  cbv zeta. unfold main.
  change (Yargs.truthy
            (Yargs.get
               (Yargs.argv (Yargs.CommandLine positional nots nogit verbose))
               "verbose")) with verbose.
  change (Yargs.truthy
            (Yargs.get
               (Yargs.argv (Yargs.CommandLine positional nots nogit verbose'))
               "verbose")) with verbose'.
  change (body w (Yargs.argv (Yargs.CommandLine positional nots nogit verbose)))
    with (body w (Yargs.argv (Yargs.CommandLine positional nots nogit verbose'))).
  destruct (body w _) as [out [text | e]]; simpl.
  - repeat split. now left.
  - repeat split. right. now exists e.
Qed.

End Runs.

(** X15. A size from 1 to 1023 bytes is printed as the number of bytes
    followed by [b]. *)
Theorem X15_formatBytes_below_1024 (bytes : N) :
  (0 < bytes < 1024)%N ->
  Clop.formatBytes bytes = Str.of_N bytes +:+ "b".
Proof.
  intros [Hpos Hlt]. unfold Clop.formatBytes.
  destruct (N.eqb_spec bytes 0) as [-> | _]; [lia |].
  assert (Hi : Clop.unit_index bytes = 0%N).
  { unfold Clop.unit_index. apply N.div_small.
    apply N.log2_lt_pow2; [exact Hpos | exact Hlt]. }
  cbv zeta. rewrite Hi. change (1024 ^ 0)%N with 1%N.
  change (nth (N.to_nat 0) Clop.sizes "undefined") with "b".
  assert (Hh : Clop.toFixed2 bytes 1 = (bytes * 100)%N).
  { unfold Clop.toFixed2.
    replace (200 * bytes + 1)%N with (1 + (bytes * 100) * (2 * 1))%N by lia.
    rewrite N.div_add by lia. reflexivity. }
  rewrite Hh. unfold Clop.print_hundredths.
  rewrite N.div_mul by lia. rewrite N.Div0.mod_mul. reflexivity.
Qed.

Lemma X15_witness : Clop.formatBytes 512 = "512b".
Proof. apply (X15_formatBytes_below_1024 512). lia. Defined.

(** ** Globs without a separator *)

Section RecursiveGlob.
Import Minimatch.

Lemma split_no_slash (p : string) :
  Str.includes_char "/" p = false -> Str.split "/" p = [p].
Proof.
  induction p as [| c p IH]; [reflexivity |].
  intros H. change (Ascii.eqb "/" c || Str.includes_char "/" p = false) in H.
  apply orb_false_iff in H. destruct H as [Hc Hp].
  change (Str.split "/" (String c p))
    with (if Ascii.eqb "/" c then EmptyString :: Str.split "/" p
          else match Str.split "/" p with
               | x :: xs => String c x :: xs
               | [] => [String c EmptyString]
               end).
  now rewrite Hc, (IH Hp).
Qed.

Lemma split_recursive (p : string) :
  Str.split "/" ("**/" +:+ p) = "**" :: Str.split "/" p.
Proof. reflexivity. Qed.

Lemma existsb_one {A : Type} (f : A -> bool) (x : A) : existsb f [x] = f x.
Proof. simpl. apply orb_false_r. Qed.

(** X4. A glob without [/] (and without braces or commas, and other
    than [**]) is searched at every depth: it matches a path exactly
    when it matches the last segment of the path and every directory
    above is a name the globstar may pass (not [.] or [..], and not
    hidden unless in dot mode). *)
Theorem X4_bare_glob_matches_at_any_depth (dot : bool) (p path : string) :
  Str.includes_char "/" p = false ->
  plain p = true ->
  p <> "**" ->
  Glob.matches dot (Clop.effectivePattern p) path = true
  <-> exists dirs name,
        (Str.split "/" path = dirs ++ [name]
         \/ Str.split "/" path = dirs ++ [name; EmptyString])
        /\ forallb (swallowable dot) dirs = true
        /\ segment_match dot p name = true.
Proof.
  intros Hslash Hplain Hstar.
  assert (Heff : Clop.effectivePattern p = "**/" +:+ p)
    by (unfold Clop.effectivePattern; now rewrite Hslash).
  assert (Hpl : plain ("**/" +:+ p) = true)
    by (rewrite <- Heff; now apply effectivePattern_plain).
  unfold Glob.matches. rewrite Heff, (braceExpand_plain _ Hpl).
  rewrite existsb_one.
  rewrite split_recursive, (split_no_slash _ Hslash).
  change (Glob.skip_cwd ["**"; p]) with ["**"; p].
  assert (Hp : String.eqb p "**" = false) by now apply String.eqb_neq.
  assert (Hrest : forall fs,
            matchOne dot fs [p] = true
            <-> exists name, (fs = [name] \/ fs = [name; EmptyString])
                             /\ segment_match dot p name = true).
  { intros fs. destruct fs as [| f fr]; [split; [discriminate |] |].
    - intros (name & [H | H] & _); discriminate H.
    - rewrite matchOne_cons, Hp, andb_true_iff. split.
      + intros [Hseg Hend]. exists f. split; [| exact Hseg].
        destruct fr as [| g [| h fr]]; simpl in Hend; try discriminate.
        * now left.
        * apply String.eqb_eq in Hend. subst g. now right.
      + intros (name & [H | H] & Hseg); inversion H; subst;
          split; auto. }
  destruct (Str.split "/" path) as [| f fr] eqn:Hsplit.
  - split; [discriminate |].
    intros (dirs & name & [H | H] & _); symmetry in H;
      apply app_eq_nil in H; destruct H as [_ H]; discriminate H.
  - rewrite matchOne_globstar by discriminate. rewrite swallow_iff. split.
    + intros (dirs & fs & Heq & _ & Hd & Hr). apply Hrest in Hr.
      destruct Hr as (name & Hfs & Hseg). exists dirs, name.
      rewrite Heq. split; [| now split].
      destruct Hfs as [-> | ->]; auto.
    + intros (dirs & name & Hfs & Hd & Hseg).
      destruct Hfs as [Heq | Heq].
      * exists dirs, [name]. rewrite Heq. repeat split; try assumption;
          [discriminate | apply Hrest; eauto].
      * exists dirs, [name; EmptyString]. rewrite Heq.
        repeat split; try assumption; [discriminate | apply Hrest; eauto].
Qed.

Lemma X4_witness :
  Glob.matches false (Clop.effectivePattern "*.txt") "src/lib/a.txt" = true.
Proof.
  apply (proj2 (X4_bare_glob_matches_at_any_depth
                  false "*.txt" "src/lib/a.txt" eq_refl eq_refl
                  ltac:(discriminate))).
  exists ["src"; "lib"], "a.txt".
  split; [now left | split; reflexivity].
Defined.

End RecursiveGlob.
